(** * Air-cargo booking: route search and booking status transitions

    A shallow embedding of the two request handlers of the repository,

    - [supabase/functions/get-routes/index.ts] (module [GetRoutes]) and
    - [supabase/functions/update-booking-status/index.ts]
      (module [UpdateBookingStatus]),

    together with the part of the database migration they depend on (the
    [create_booking_event] trigger), and the properties of the
    specification established or refuted on them; then, of what stands
    around them, the page of a booking, the handler that creates bookings
    with the triggers of an insertion, and the figures of the dashboard.

    Conventions of the embedding.

    - An instant (a [timestamptz] column, or the value of
      [new Date(s).getTime()]) is a [Z]: whole milliseconds since the epoch.
      All instants are taken inside the range of a JavaScript [Date], where
      the double arithmetic of the handlers is exact on these integers, and
      the clock of the runtime is UTC, where [setDate(getDate() + n)] adds
      [n] days of 24 hours.
    - A JavaScript string is a [string]; a value tested with [!x] is
      represented by a string that is empty exactly when the value is falsy.
    - The data store is not part of the handlers; it is a function from the
      queries the handlers send to the answers of supabase-js, which never
      throws and reports a failure as [{ data: null, error }]. *)

From Stdlib Require Import ZArith List String Ascii Bool Lia.
From Stdlib Require Import Sorting.Sorted Sorting.Permutation.
From Stdlib Require Import DecimalString DecimalPos.
Import ListNotations.

Local Open Scope string_scope.
Local Open Scope Z_scope.

(* ------------------------------------------------------------------ *)
(** * JavaScript primitives used by the handlers *)

Module Js.

(** [String(n)] for an integral number [n] (what a template literal
    [`${n}`] inserts); [-0] prints as [0], like [0]. *)
Definition toString (n : Z) : string :=
  NilZero.string_of_int (Z.to_int n).

(** [\d] of a regular expression without the [u] flag. *)
Definition is_digit (c : ascii) : bool :=
  let n := N_of_ascii c in ((48 <=? n) && (n <=? 57))%N.

(** [\s] on the code units below 256: TAB, LF, VT, FF, CR, SPACE, NBSP. *)
Definition is_space (c : ascii) : bool :=
  let n := N_of_ascii c in
  (((9 <=? n) && (n <=? 13)) || (n =? 32) || (n =? 160))%N.

Definition digit_value (c : ascii) : Z :=
  Z.of_N (N_of_ascii c) - 48.

Fixpoint parse_digits (acc : Z) (s : string) : Z :=
  match s with
  | String c s' =>
      if is_digit c then parse_digits (10 * acc + digit_value c) s' else acc
  | EmptyString => acc
  end.

(** [parseInt(s)] on a string that starts with a decimal digit (the only
    strings the handlers pass are capture groups of [\d+]): the number
    that the digits denote, which is what [parseInt] returns for the
    numbers up to 2^53. *)
Definition parseInt (s : string) : Z := parse_digits 0 s.

(** The longest prefix of digits, and what follows it: a greedy [\d+]. *)
Fixpoint span_digits (s : string) : string * string :=
  match s with
  | String c s' =>
      if is_digit c
      then let (d, r) := span_digits s' in (String c d, r)
      else (EmptyString, s)
  | EmptyString => (EmptyString, EmptyString)
  end.

(** A greedy [\s*]. *)
Fixpoint skip_spaces (s : string) : string :=
  match s with
  | String c s' => if is_space c then skip_spaces s' else s
  | EmptyString => EmptyString
  end.

(** Strings made of decimal digits, and the number such a string denotes
    when it is read from the left, as stated on the numerals of the
    standard library. *)
Fixpoint digits_only (s : string) : bool :=
  match s with
  | String c s' => is_digit c && digits_only s'
  | EmptyString => true
  end.

Definition starts_with_digit (s : string) : bool :=
  match s with
  | String c _ => is_digit c
  | EmptyString => false
  end.

Fixpoint uint_value (acc : Z) (d : Decimal.uint) : Z :=
  match d with
  | Decimal.Nil => acc
  | Decimal.D0 d' => uint_value (10 * acc) d'
  | Decimal.D1 d' => uint_value (10 * acc + 1) d'
  | Decimal.D2 d' => uint_value (10 * acc + 2) d'
  | Decimal.D3 d' => uint_value (10 * acc + 3) d'
  | Decimal.D4 d' => uint_value (10 * acc + 4) d'
  | Decimal.D5 d' => uint_value (10 * acc + 5) d'
  | Decimal.D6 d' => uint_value (10 * acc + 6) d'
  | Decimal.D7 d' => uint_value (10 * acc + 7) d'
  | Decimal.D8 d' => uint_value (10 * acc + 8) d'
  | Decimal.D9 d' => uint_value (10 * acc + 9) d'
  end.

(** [!!s] for a string [s]: only the empty string is falsy. *)
Definition truthy (s : string) : bool :=
  match s with EmptyString => false | _ => true end.

End Js.

(* ------------------------------------------------------------------ *)
(** * Stable sorting by an integer key

    [Array.prototype.sort] is stable, and so is the order in which rows of
    equal sort key are taken here for [ORDER BY]; with a comparator of the
    form [key a - key b] every stable sort returns the same array, which
    insertion from the right computes. *)

Module StableSort.
Section ByKey.
Context {A : Type} (key : A -> Z).

(** [x] is older than every element of [l]: it goes in front of the
    first element whose key is not smaller. *)
Fixpoint insert (x : A) (l : list A) : list A :=
  match l with
  | [] => [x]
  | y :: l' => if key x <=? key y then x :: l else y :: insert x l'
  end.

Fixpoint sort (l : list A) : list A :=
  match l with
  | [] => []
  | x :: l' => insert x (sort l')
  end.

Definition key_le (a b : A) : Prop := key a <= key b.

(** The order a stable sort leaves between an element and a later one:
    keys do not decrease, and a relation [Q] that held from each element
    of the input to the later ones still holds at equal keys. *)
Definition stably_before (Q : A -> A -> Prop) (a b : A) : Prop :=
  key a <= key b /\ (key a = key b -> Q a b).

Definition has_key (k : Z) (a : A) : bool := key a =? k.
End ByKey.
End StableSort.

(* ------------------------------------------------------------------ *)
(** * get-routes *)

Module GetRoutes.

Definition ms_per_minute : Z := 1000 * 60.
Definition ms_per_hour : Z := 1000 * 60 * 60.
Definition ms_per_day : Z := 24 * ms_per_hour.

(** [calculateDuration(start, end)]: [Math.floor] of a quotient is [Z.div],
    the [%] of JavaScript is the truncating [Z.rem]. *)
Definition calculateDuration (start end_ : Z) : string :=
  let diffMs := end_ - start in
  let hours := diffMs / ms_per_hour in
  let minutes := Z.rem diffMs ms_per_hour / ms_per_minute in
  Js.toString hours ++ "h " ++ Js.toString minutes ++ "m".

(** One attempt of [/(\d+)h\s*(\d+)m/] at the start of [s], given the
    digits [h] already read by the first group.  Both [\d+] and [\s*] are
    followed by a character outside their class, so backtracking into them
    never helps and the greedy reading is the only one. *)
Definition match_after_hours (h rest : string) : option (string * string) :=
  match rest with
  | String "h" r2 =>
      let (m, r4) := Js.span_digits (Js.skip_spaces r2) in
      match m, r4 with
      | String _ _, String "m" _ => Some (h, m)
      | _, _ => None
      end
  | _ => None
  end.

Definition match_here (s : string) : option (string * string) :=
  let (h, rest) := Js.span_digits s in
  match h with
  | String _ _ => match_after_hours h rest
  | EmptyString => None
  end.

(** [duration.match(/(\d+)h\s*(\d+)m/)]: the leftmost position at which
    the expression matches, with its two capture groups. *)
Fixpoint duration_match (s : string) : option (string * string) :=
  match match_here s with
  | Some groups => Some groups
  | None =>
      match s with
      | String _ s' => duration_match s'
      | EmptyString => None
      end
  end.

Definition parseDuration (duration : string) : Z :=
  match duration_match duration with
  | Some (h, m) => Js.parseInt h * 60 + Js.parseInt m
  | None => 0
  end.

(** ** The flight catalog and its queries *)

Record Flight := {
  id : string;
  flight_number : string;
  airline_name : string;
  departure_datetime : Z;
  arrival_datetime : Z;
  origin : string;
  destination : string
}.

Inductive RouteType := direct | transit.

Record RouteOption := {
  type : RouteType;
  flights : list Flight;
  total_duration : string
}.

(** The filters of the query builder that the handler uses on [flights]. *)
Inductive Filter :=
| eq_origin (v : string)
| eq_destination (v : string)
| neq_destination (v : string)
| gte_departure_datetime (t : Z)
| lt_departure_datetime (t : Z).

(** [from('flights').select('*')] followed by filters,
    [.order('departure_datetime')] and, possibly, [.limit(n)]. *)
Record Select := {
  filters : list Filter;
  limit : option nat
}.

(** The answer of supabase-js, of which the handler reads [data] only. *)
Record QueryResult := {
  data : option (list Flight);
  error : option string
}.

Definition Store := Select -> QueryResult.

Definition satisfies (f : Flight) (c : Filter) : bool :=
  match c with
  | eq_origin v => (origin f =? v)%string
  | eq_destination v => (destination f =? v)%string
  | neq_destination v => negb (destination f =? v)%string
  | gte_departure_datetime t => t <=? departure_datetime f
  | lt_departure_datetime t => departure_datetime f <? t
  end.

(** [.order('departure_datetime')]; rows of equal departure, whose order
    the database leaves open, stay in the order of the table. *)
Definition order_by_departure (rows : list Flight) : list Flight :=
  StableSort.sort departure_datetime rows.

Definition matching (q : Select) (f : Flight) : bool :=
  forallb (satisfies f) (filters q).

Definition run_select (catalog : list Flight) (q : Select) : list Flight :=
  let rows := filter (matching q) catalog in
  let rows := order_by_departure rows in
  match limit q with
  | Some n => firstn n rows
  | None => rows
  end.

(** A store that holds [catalog] and answers every query. *)
Definition catalog_store (catalog : list Flight) : Store :=
  fun q => {| data := Some (run_select catalog q); error := None |}.

(** A store that cannot be reached, or that rejects every query. *)
Definition failing_store (message : string) : Store :=
  fun _ => {| data := None; error := Some message |}.

(** ** The handler *)

(** [new Date(departure_date)]. *)
Inductive JsDate := InvalidDate | DateAt (ms : Z).

(** The body of the request after [await req.json()];
    [req_departure_date] is [None] when the field is falsy. *)
Record Request := {
  req_origin : string;
  req_destination : string;
  req_departure_date : option JsDate
}.

Inductive Body :=
| Routes (routes : list RouteOption)
| Error (message : string).

Record Response := {
  status : Z;
  body : Body
}.

(** The rows a [forEach] or [for ... of] guarded by
    [if (data && data.length > 0)] runs over. *)
Definition rows_of (r : QueryResult) : list Flight :=
  match data r with
  | Some rows => rows
  | None => []
  end.

Definition directFlights_query (origin destination : string)
    (departureStart departureEnd : Z) : Select :=
  {| filters := [eq_origin origin; eq_destination destination;
                 gte_departure_datetime departureStart;
                 lt_departure_datetime departureEnd];
     limit := None |}.

Definition firstHopFlights_query (origin destination : string)
    (departureStart departureEnd : Z) : Select :=
  {| filters := [eq_origin origin; neq_destination destination;
                 gte_departure_datetime departureStart;
                 lt_departure_datetime departureEnd];
     limit := None |}.

Definition secondHopFlights_query (firstFlight : Flight)
    (destination_ : string) : Select :=
  let nextDayEnd := arrival_datetime firstFlight + 2 * ms_per_day in
  {| filters := [eq_origin (destination firstFlight);
                 eq_destination destination_;
                 gte_departure_datetime (arrival_datetime firstFlight);
                 lt_departure_datetime nextDayEnd];
     limit := Some 3%nat |}.

Definition direct_route (flight : Flight) : RouteOption :=
  {| type := direct;
     flights := [flight];
     total_duration :=
       calculateDuration (departure_datetime flight)
                         (arrival_datetime flight) |}.

Definition transit_route (firstFlight secondFlight : Flight) : RouteOption :=
  {| type := transit;
     flights := [firstFlight; secondFlight];
     total_duration :=
       calculateDuration (departure_datetime firstFlight)
                         (arrival_datetime secondFlight) |}.

(** [layoverHours >= 2], on the milliseconds whose quotient by
    [1000 * 60 * 60] is [layoverHours]. *)
Definition layover (firstFlight secondFlight : Flight) : Z :=
  departure_datetime secondFlight - arrival_datetime firstFlight.

Definition layover_ok (firstFlight secondFlight : Flight) : bool :=
  2 * ms_per_hour <=? layover firstFlight secondFlight.

(** The routes one iteration of the loop over [firstHopFlights] pushes. *)
Definition transit_routes (store : Store) (destination_ : string)
    (firstFlight : Flight) : list RouteOption :=
  let secondHopFlights :=
    rows_of (store (secondHopFlights_query firstFlight destination_)) in
  map (transit_route firstFlight)
      (filter (layover_ok firstFlight) secondHopFlights).

(** The array [routes] before it is sorted. *)
Definition candidate_routes (store : Store) (origin destination_ : string)
    (departureStart : Z) : list RouteOption :=
  let departureEnd := departureStart + ms_per_day in
  let directFlights :=
    rows_of (store (directFlights_query origin destination_
                      departureStart departureEnd)) in
  let firstHopFlights :=
    rows_of (store (firstHopFlights_query origin destination_
                      departureStart departureEnd)) in
  (map direct_route directFlights
   ++ flat_map (transit_routes store destination_) firstHopFlights)%list.

Definition duration_key (r : RouteOption) : Z :=
  parseDuration (total_duration r).

Definition sort_routes (routes : list RouteOption) : list RouteOption :=
  StableSort.sort duration_key routes.

Definition SearchRoutes (store : Store) (origin destination_ : string)
    (departureStart : Z) : list RouteOption :=
  sort_routes (candidate_routes store origin destination_ departureStart).

(** [serve]: the [try] block, with the [catch] that [toISOString] reaches
    on an invalid date. *)
Definition serve (store : Store) (req : Request) : Response :=
  match Js.truthy (req_origin req), Js.truthy (req_destination req),
        req_departure_date req with
  | true, true, Some date =>
      match date with
      | DateAt departureStart =>
          {| status := 200;
             body := Routes (SearchRoutes store (req_origin req)
                               (req_destination req) departureStart) |}
      | InvalidDate =>
          {| status := 500; body := Error "Internal server error" |}
      end
  | _, _, _ =>
      {| status := 400; body := Error "Missing required parameters" |}
  end.

(** No transit route in front of a direct one. *)
Definition direct_first (a b : RouteOption) : Prop :=
  ~ (type a = transit /\ type b = direct).

(** A transit route whose first flight is the row [i] of the catalog. *)
Definition led_by (i : string) (r : RouteOption) : bool :=
  match type r, flights r with
  | transit, firstFlight :: _ => (id firstFlight =? i)%string
  | _, _ => false
  end.

(** The instants a route spans: the departure of its first flight and the
    arrival of its last one. *)
Definition span_of (r : RouteOption) : Z :=
  match flights r with
  | [] => 0
  | firstFlight :: rest =>
      arrival_datetime (last rest firstFlight) - departure_datetime firstFlight
  end.

End GetRoutes.

(* ------------------------------------------------------------------ *)
(** * update-booking-status *)

Module UpdateBookingStatus.

(** ** The tables

    The columns of [bookings] and [booking_events] that the handler and
    the event trigger read or write, for the rows that the client of the
    handler may see and change.  The identifier of an event (a random
    UUID in the table) is a number here, and a new one exceeds every one in
    use.  [events] is in order of creation: [created_at] grows along it.
    The column [updated_at] of [bookings], which the trigger
    [update_bookings_updated_at] sets on every update, is not kept. *)

Record Booking := {
  id : string;
  ref_id : string;
  origin : string;
  destination : string;
  pieces : Z;
  weight_kg : Z;
  status : string
}.

Record BookingEvent := {
  event_id : nat;
  booking_id : string;
  event_type : string;
  location : option string;
  flight_id : option string;
  notes : option string
}.

Record Db := {
  bookings : list Booking;
  events : list BookingEvent
}.

(** Which of the four calls of the handler the store fails: none of them
    throws, each reports [{ data: null, error }] and changes nothing. *)
Record Faults := {
  fetch_booking_fails : bool;
  update_booking_fails : bool;
  fetch_latest_event_fails : bool;
  update_event_fails : bool
}.

Definition no_faults : Faults :=
  {| fetch_booking_fails := false;
     update_booking_fails := false;
     fetch_latest_event_fails := false;
     update_event_fails := false |}.

Definition with_status (b : Booking) (s : string) : Booking :=
  {| id := id b; ref_id := ref_id b; origin := origin b;
     destination := destination b; pieces := pieces b;
     weight_kg := weight_kg b; status := s |}.

Definition fresh_event_id (evs : list BookingEvent) : nat :=
  S (list_max (map event_id evs)).

(** The trigger [create_booking_event] of the migration, on [UPDATE]:
    the place it records, the row it inserts, and when it inserts it. *)
Definition default_location (new : Booking) : option string :=
  if (status new =? "DEPARTED")%string then Some (origin new)
  else if (status new =? "ARRIVED")%string then Some (destination new)
  else if (status new =? "DELIVERED")%string then Some (destination new)
  else None.

Definition status_event (new : Booking) (evs : list BookingEvent)
    : BookingEvent :=
  {| event_id := fresh_event_id evs;
     booking_id := id new;
     event_type := status new;
     location := default_location new;
     flight_id := None;
     notes := None |}.

Definition create_booking_event (old new : Booking)
    (evs : list BookingEvent) : list BookingEvent :=
  if negb (status old =? status new)%string
  then (evs ++ [status_event new evs])%list
  else evs.

(** [.single()]: exactly one row, or an error. *)
Definition single {A : Type} (rows : list A) : option A :=
  match rows with
  | [row] => Some row
  | _ => None
  end.

Definition has_ref_id (r : string) (b : Booking) : bool :=
  (ref_id b =? r)%string.

(** [from('bookings').select('*').eq('ref_id', ref_id).single()]. *)
Definition fetch_booking (f : Faults) (db : Db) (r : string)
    : option Booking :=
  if fetch_booking_fails f then None
  else single (filter (has_ref_id r) (bookings db)).

(** The tables after [UPDATE bookings SET status = s WHERE ref_id = r],
    [old] being the row it finds. *)
Definition set_status (db : Db) (r s : string) (old : Booking) : Db :=
  {| bookings :=
       map (fun b => if has_ref_id r b then with_status b s else b)
           (bookings db);
     events :=
       create_booking_event old (with_status old s) (events db) |}.

(** [from('bookings').update({ status }).eq('ref_id', ref_id).select()
    .single()], with the trigger it fires. *)
Definition update_booking (f : Faults) (db : Db) (r s : string)
    : option (Booking * Db) :=
  if update_booking_fails f then None
  else
    match single (filter (has_ref_id r) (bookings db)) with
    | Some old => Some (with_status old s, set_status db r s old)
    | None => None
    end.

(** [from('booking_events').select('*').eq('booking_id', id)
    .order('created_at', { ascending: false }).limit(1).single()]. *)
Definition fetch_latest_event (f : Faults) (db : Db) (bid : string)
    : option BookingEvent :=
  if fetch_latest_event_fails f then None
  else
    single (firstn 1 (rev (filter (fun e => (booking_id e =? bid)%string)
                                  (events db)))).

Definition patch_event (n : option string) (fl : option string)
    (e : BookingEvent) : BookingEvent :=
  {| event_id := event_id e; booking_id := booking_id e;
     event_type := event_type e; location := location e;
     flight_id := fl; notes := n |}.

(** [from('booking_events').update({ notes, flight_id }).eq('id', id)]. *)
Definition update_event (f : Faults) (db : Db) (eid : nat)
    (n fl : option string) : Db :=
  if update_event_fails f then db
  else
    {| bookings := bookings db;
       events := map (fun e => if Nat.eqb (event_id e) eid
                               then patch_event n fl e else e)
                     (events db) |}.

(** ** The handler *)

Record Request := {
  req_ref_id : string;
  req_status : string;
  req_location : string;
  req_notes : string;
  req_flight_id : string
}.

Inductive Body :=
| Updated (message : string) (booking : Booking)
| Error (error : string).

Record Response := {
  http_status : Z;
  body : Body
}.

Definition includes (l : list string) (x : string) : bool :=
  existsb (String.eqb x) l.

Definition validStatuses : list string :=
  ["BOOKED"; "DEPARTED"; "ARRIVED"; "DELIVERED"; "CANCELLED"].

Definition TransitionTable := list (string * list string).

Definition validTransitions : TransitionTable :=
  [("BOOKED", ["DEPARTED"; "CANCELLED"]);
   ("DEPARTED", ["ARRIVED"]);
   ("ARRIVED", ["DELIVERED"]);
   ("DELIVERED", []);
   ("CANCELLED", [])].

(** [table[key]]: the value of the property, [None] for [undefined]. *)
Fixpoint property (table : TransitionTable) (key : string)
    : option (list string) :=
  match table with
  | [] => None
  | (k, v) :: table' => if (k =? key)%string then Some v
                        else property table' key
  end.

(** [table[current]?.includes(requested)], [undefined] being falsy. *)
Definition listed (table : TransitionTable) (current requested : string)
    : bool :=
  match property table current with
  | Some targets => includes targets requested
  | None => false
  end.

(** [a || b] for a string [a] of the request and a nullable column [b]. *)
Definition or_else (a : string) (b : option string) : option string :=
  if Js.truthy a then Some a else b.

Definition failure (code : Z) (message : string) (db : Db)
    : Response * Db :=
  ({| http_status := code; body := Error message |}, db).

(** The block under [if (notes || flight_id)]: the latest event of the
    booking gets the notes and the flight of the request; the answers of
    the store to the two calls are not looked at beyond [data]. *)
Definition patch_latest_event (f : Faults) (db : Db)
    (updatedBooking : Booking) (req : Request) : Db :=
  if Js.truthy (req_notes req) || Js.truthy (req_flight_id req) then
    match fetch_latest_event f db (id updatedBooking) with
    | Some latestEvent =>
        update_event f db (event_id latestEvent)
          (or_else (req_notes req) (notes latestEvent))
          (or_else (req_flight_id req) (flight_id latestEvent))
    | None => db
    end
  else db.

Definition cannot_change (current requested : string) : string :=
  "Cannot change status from " ++ current ++ " to " ++ requested.

Definition updated (b : Booking) : Response :=
  {| http_status := 200;
     body := Updated "Booking status updated successfully" b |}.

(** The handler over a transition table; [serve] below is the handler of
    the source, over [validTransitions]. *)
Definition serve_with (table : TransitionTable) (f : Faults) (db : Db)
    (req : Request) : Response * Db :=
  let ref_id := req_ref_id req in
  let status_ := req_status req in
  if negb (Js.truthy ref_id) || negb (Js.truthy status_) then
    failure 400 "Booking reference and status are required" db
  else if negb (includes validStatuses status_) then
    failure 400 "Invalid status" db
  else
    match fetch_booking f db ref_id with
    | None => failure 404 "Booking not found" db
    | Some currentBooking =>
        if negb (listed table (status currentBooking) status_) then
          failure 400 (cannot_change (status currentBooking) status_) db
        else if (status_ =? "CANCELLED")%string
                && includes ["ARRIVED"; "DELIVERED"]
                            (status currentBooking) then
          failure 400 "Cannot cancel booking that has already arrived" db
        else
          match update_booking f db ref_id status_ with
          | None => failure 500 "Failed to update booking status" db
          | Some (updatedBooking, db1) =>
              (updated updatedBooking,
               patch_latest_event f db1 updatedBooking req)
          end
    end.

Definition serve : Faults -> Db -> Request -> Response * Db :=
  serve_with validTransitions.

(** The transition table of the specification, as a relation: BOOKED to
    DEPARTED or CANCELLED, DEPARTED to ARRIVED, ARRIVED to DELIVERED, and
    nothing from DELIVERED or CANCELLED. *)
Definition allowed (current requested : string) : Prop :=
  (current = "BOOKED" /\ (requested = "DEPARTED" \/ requested = "CANCELLED"))
  \/ (current = "DEPARTED" /\ requested = "ARRIVED")
  \/ (current = "ARRIVED" /\ requested = "DELIVERED").

(** The status a booking reference has in the store, if it has one. *)
Definition status_of (db : Db) (r : string) : option string :=
  option_map status (single (filter (has_ref_id r) (bookings db))).

End UpdateBookingStatus.

(* ------------------------------------------------------------------ *)
(** * Sample data *)

Module Samples.
Import GetRoutes.

(** 2024-08-16T00:00:00Z, the day of the flights the migration inserts. *)
Definition day : Z := 1723766400000.

Definition at_ (h m : Z) : Z := day + h * ms_per_hour + m * ms_per_minute.

Definition flight (number airline : string) (dep arr : Z) (o d : string)
    : Flight :=
  {| id := number; flight_number := number; airline_name := airline;
     departure_datetime := dep; arrival_datetime := arr;
     origin := o; destination := d |}.

(** The rows of [INSERT INTO public.flights] in the migration. *)
Definition sample_flights : list Flight :=
  [flight "AI101" "Air India" (at_ 6 0) (at_ 8 30) "DEL" "BOM";
   flight "6E202" "IndiGo" (at_ 9 15) (at_ 11 45) "DEL" "BOM";
   flight "SG303" "SpiceJet" (at_ 14 30) (at_ 17 0) "DEL" "BOM";
   flight "AI401" "Air India" (at_ 10 0) (at_ 11 45) "BOM" "BLR";
   flight "6E502" "IndiGo" (at_ 13 30) (at_ 15 15) "BOM" "BLR";
   flight "SG603" "SpiceJet" (at_ 18 45) (at_ 20 30) "BOM" "BLR";
   flight "AI701" "Air India" (at_ 7 30) (at_ 10 15) "DEL" "BLR";
   flight "6E802" "IndiGo" (at_ 16 0) (at_ 18 45) "DEL" "BLR";
   flight "AI901" "Air India" (at_ 8 0) (at_ 10 30) "DEL" "HYD";
   flight "6E902" "IndiGo" (at_ 12 0) (at_ 15 0) "HYD" "BLR"].

Definition del_blr : Request :=
  {| req_origin := "DEL"; req_destination := "BLR";
     req_departure_date := Some (DateAt day) |}.

Definition del_bom : Request :=
  {| req_origin := "DEL"; req_destination := "BOM";
     req_departure_date := Some (DateAt day) |}.

(** One flight into BOM at 08:30 and four onward flights, of which only
    the last leaves two hours or more after it. *)
Definition first_leg : Flight :=
  flight "AI101" "Air India" (at_ 6 0) (at_ 8 30) "DEL" "BOM".

Definition late_leg : Flight :=
  flight "AI404" "Air India" (at_ 10 45) (at_ 12 30) "BOM" "BLR".

Definition crowded_flights : list Flight :=
  [first_leg;
   flight "AI401" "Air India" (at_ 8 40) (at_ 10 25) "BOM" "BLR";
   flight "AI402" "Air India" (at_ 8 50) (at_ 10 35) "BOM" "BLR";
   flight "AI403" "Air India" (at_ 9 0) (at_ 10 45) "BOM" "BLR";
   late_leg].

(** A row whose arrival is before its departure, which no constraint of
    the [flights] table excludes, and one of half an hour. *)
Definition backwards_flight : Flight :=
  flight "XX001" "Nowhere Air" (at_ 6 0) (at_ 3 30) "DEL" "BOM".

Definition hour_back_flight : Flight :=
  flight "XX002" "Nowhere Air" (at_ 6 0) (at_ 5 0) "DEL" "BOM".

Definition short_flight : Flight :=
  flight "XX003" "Nowhere Air" (at_ 7 0) (at_ 7 30) "DEL" "BOM".

End Samples.

Module BookingSamples.
Import UpdateBookingStatus.

Definition booking (s : string) : Booking :=
  {| id := "b-1"; ref_id := "ACB7K2Q9X"; origin := "DEL";
     destination := "BOM"; pieces := 2; weight_kg := 10; status := s |}.

Definition created : BookingEvent :=
  {| event_id := 1; booking_id := "b-1"; event_type := "CREATED";
     location := Some "DEL"; flight_id := None; notes := None |}.

Definition db_with (s : string) : Db :=
  {| bookings := [booking s]; events := [created] |}.

Definition request (s n : string) : Request :=
  {| req_ref_id := "ACB7K2Q9X"; req_status := s; req_location := "";
     req_notes := n; req_flight_id := "" |}.

(** The store fails the update of the event, and nothing else. *)
Definition event_update_fails : Faults :=
  {| fetch_booking_fails := false;
     update_booking_fails := false;
     fetch_latest_event_fails := false;
     update_event_fails := true |}.

(** A table to which CANCELLED was added for ARRIVED and DELIVERED. *)
Definition lenient_table : TransitionTable :=
  [("BOOKED", ["DEPARTED"; "CANCELLED"]);
   ("DEPARTED", ["ARRIVED"]);
   ("ARRIVED", ["DELIVERED"; "CANCELLED"]);
   ("DELIVERED", ["CANCELLED"]);
   ("CANCELLED", [])].

End BookingSamples.

(* ------------------------------------------------------------------ *)
(** * Terms in which further properties of the route search are stated *)

Module RouteTerms.
Import GetRoutes.

(** The departure of the first flight of a route. *)
Definition first_departure (r : RouteOption) : Z :=
  match flights r with
  | firstFlight :: _ => departure_datetime firstFlight
  | [] => 0
  end.

(** The order in which the search meets two options of one type: by the
    departure of the first flight. *)
Definition met_in_order (a b : RouteOption) : Prop :=
  type a = type b -> first_departure a <= first_departure b.

(** Strings that a [\s*] matches whole. *)
Fixpoint spaces_only (s : string) : bool :=
  match s with
  | String c s' => Js.is_space c && spaces_only s'
  | EmptyString => true
  end.

(** A catalog in which no flight arrives before it departs. *)
Definition arrives_after_departure (f : Flight) : Prop :=
  departure_datetime f <= arrival_datetime f.

End RouteTerms.

(* ------------------------------------------------------------------ *)
(** * Terms in which further properties of the status handler are stated *)

Module LifecycleTerms.
Import UpdateBookingStatus.

(** The values that the [CHECK] constraint of [booking_events.event_type]
    admits in the migration. *)
Definition event_types : list string :=
  ["CREATED"; "DEPARTED"; "ARRIVED"; "DELIVERED"; "CANCELLED"].

(** The constraints of the migration on the two tables: [ref_id] is
    unique, the two [id] columns are primary keys, [booking_id] refers to
    a booking, and [status] and [event_type] pass their [CHECK]. *)
Record constraints_hold (db : Db) : Prop := {
  ref_ids_unique : NoDup (map ref_id (bookings db));
  booking_ids_unique : NoDup (map id (bookings db));
  event_ids_unique : NoDup (map event_id (events db));
  events_refer_to_bookings :
    Forall (fun e => In (booking_id e) (map id (bookings db))) (events db);
  statuses_checked :
    Forall (fun b => In (status b) validStatuses) (bookings db);
  event_types_checked :
    Forall (fun e => In (event_type e) event_types) (events db)
}.

(** Calls of the handler one after the other, each with the failures the
    store has during it. *)
Fixpoint run (calls : list (Faults * Request)) (db : Db)
    : list Response * Db :=
  match calls with
  | [] => ([], db)
  | (f, req) :: rest =>
      let (resp, db1) := serve f db req in
      let (resps, db2) := run rest db1 in
      (resp :: resps, db2)
  end.

Definition successes (resps : list Response) : nat :=
  List.length (filter (fun resp => http_status resp =? 200) resps).

(** The transitions the table still allows in a row from a status. *)
Definition transitions_left (s : string) : nat :=
  if (s =? "BOOKED")%string then 3%nat
  else if (s =? "DEPARTED")%string then 2%nat
  else if (s =? "ARRIVED")%string then 1%nat
  else 0%nat.

Definition transitions_left_of (db : Db) (r : string) : nat :=
  match status_of db r with
  | Some s => transitions_left s
  | None => 0%nat
  end.

End LifecycleTerms.

(* ------------------------------------------------------------------ *)
(** * The page of a booking ([src/pages/BookingDetails.tsx]) *)

Module BookingDetailsPage.
Import UpdateBookingStatus.

(** The copy of the transition table that [canUpdateTo] holds. *)
Definition validTransitions : TransitionTable :=
  [("BOOKED", ["DEPARTED"; "CANCELLED"]);
   ("DEPARTED", ["ARRIVED"]);
   ("ARRIVED", ["DELIVERED"]);
   ("DELIVERED", []);
   ("CANCELLED", [])].

(** [canUpdateTo(status)], [booking] being the state of the page:
    [validTransitions[currentStatus]?.includes(status) || false]. *)
Definition canUpdateTo (booking : option Booking) (status_ : string)
    : bool :=
  match booking with
  | None => false
  | Some b => listed validTransitions (status b) status_ || false
  end.

(** [updateBookingStatus(newStatus, location, notes)]: the body it sends
    to the handler, if the page has a booking; an argument left out is
    [undefined], which is not sent. *)
Definition updateBookingStatus (booking : option Booking)
    (newStatus location_ notes_ : string) : option Request :=
  match booking with
  | None => None
  | Some b =>
      Some {| req_ref_id := ref_id b;
              req_status := newStatus;
              req_location := location_;
              req_notes := notes_;
              req_flight_id := "" |}
  end.

(** The four buttons of the panel of actions. *)
Inductive Action := MarkDeparted | MarkArrived | MarkDelivered | CancelBooking.

Definition action_status (a : Action) : string :=
  match a with
  | MarkDeparted => "DEPARTED"
  | MarkArrived => "ARRIVED"
  | MarkDelivered => "DELIVERED"
  | CancelBooking => "CANCELLED"
  end.

(** The condition under which a button is rendered, and its [onClick]. *)
Definition shown (b : Booking) (a : Action) : bool :=
  canUpdateTo (Some b) (action_status a).

Definition onClick (b : Booking) (a : Action) : option Request :=
  match a with
  | MarkDeparted => updateBookingStatus (Some b) "DEPARTED" (origin b) ""
  | MarkArrived => updateBookingStatus (Some b) "ARRIVED" (destination b) ""
  | MarkDelivered =>
      updateBookingStatus (Some b) "DELIVERED" (destination b) ""
  | CancelBooking => updateBookingStatus (Some b) "CANCELLED" "" ""
  end.

End BookingDetailsPage.

(* ------------------------------------------------------------------ *)
(** * Double precision numbers of the database

    [random()], and the product and the sum that [generate_ref_id] makes
    of it, are of the type [double precision].  A finite number of that
    type that is not negative is a whole number of times the smallest one,
    2^-1074, and has 53 significant bits at most; it is kept here as that
    whole number, so that [one] is 2^1074.  An operation gives the exact
    result rounded to 53 significant bits: to the nearest such number, and
    to the even one of two that are as near. *)

Module Float8.

Definition one : Z := 2 ^ 1074.

(** A whole number below 2^53, which the type holds exactly. *)
Definition of_integer (i : Z) : Z := i * one.

Definition round (n : Z) : Z :=
  let excess := Z.log2 n - 52 in
  if excess <=? 0 then n
  else
    let ulp := 2 ^ excess in
    let q := n / ulp in
    let r := n mod ulp in
    if 2 * r <? ulp then q * ulp
    else if ulp <? 2 * r then (q + 1) * ulp
    else if Z.even q then q * ulp
    else (q + 1) * ulp.

(** The largest finite number of the type: 2^1024 less 2^971. *)
Definition largest : Z := (2 ^ 53 - 1) * 2 ^ 2045.

(** The whole numbers that stand for a number of the type. *)
Definition is_float8 (n : Z) : Prop :=
  0 <= n <= largest /\ round n = n.

(** [x * i], [i] being an integer that is converted without loss. *)
Definition mul_integer (x i : Z) : Z := round (x * i).

Definition add (x y : Z) : Z := round (x + y).

(** [floor(x)::INTEGER]. *)
Definition floor (x : Z) : Z := x / one.

End Float8.

(* ------------------------------------------------------------------ *)
(** * create-booking, and the triggers of an insertion

    The handler [supabase/functions/create-booking/index.ts] and, from the
    migration, [generate_ref_id], [auto_generate_ref_id] and the branch of
    [create_booking_event] for [INSERT], as the second document of the
    migration leaves them: it creates the functions again, each with
    [SET search_path = ''].  The store is the one of the status handler,
    here with every row of the two tables: the trigger looks for a
    reference among all of them.  [pieces] and [weight_kg] are whole
    numbers below 10^21 in size, of which [String(n)] is the digits, or
    absent ([null], which is what the [NaN] of the page is sent as).  The
    column [user_id], which only the policies of row-level security read,
    is not kept. *)

Module CreateBooking.
Import UpdateBookingStatus.

(** ** Functions and the search path *)

Inductive Schema := pg_catalog | public.

Definition Schema_eqb (a b : Schema) : bool :=
  match a, b with
  | pg_catalog, pg_catalog => true
  | public, public => true
  | _, _ => false
  end.

(** The schema of each function that the bodies call by its bare name:
    [generate_ref_id] is created by the migration, in [public]; the others
    are built in. *)
Definition schema_of_function (name : string) : option Schema :=
  if (name =? "generate_ref_id")%string then Some public
  else if includes ["random"; "floor"; "length"; "substr"; "now"] name
       then Some pg_catalog
       else None.

(** Whether a call by the bare name finds the function under a search
    path: [pg_catalog] is looked into whatever the path is. *)
Definition resolves (path : list Schema) (name : string) : bool :=
  match schema_of_function name with
  | Some s => Schema_eqb s pg_catalog || existsb (Schema_eqb s) path
  | None => false
  end.

(** The path of the session, under which the functions of the first
    document run, and the one that the second document sets for each of
    them: [SET search_path = '']. *)
Definition session_search_path : list Schema := [public].

Definition search_path : list Schema := [].

(** What a function of the database does: it raises an error, of which
    the code is kept, or it returns. *)
Inductive Raise (A : Type) :=
| raised (sqlstate : string)
| returned (a : A).
Arguments raised {A} sqlstate.
Arguments returned {A} a.

Definition undefined_function : string := "42883".

(** ** References *)

Definition chars : string := "ABCDEFGHIJKLMNOPQRSTUVWXYZ0123456789".

(** [substr(s, start, 1)] of the database: positions count from one, and
    a position outside the string gives the empty string. *)
Definition substr (s : string) (start : Z) : string :=
  if start <=? 0 then "" else substring (Z.to_nat (start - 1)) 1 s.

(** The values that the successive calls of [random()] return, as numbers
    of [Float8]. *)
Definition Random := nat -> Z.

(** [FOR i IN 1..n LOOP result := result || substr(chars,
    floor(random() * length(chars) + 1)::INTEGER, 1)], from the [k]-th
    call of [random()] on. *)
Fixpoint generate_loop (n : nat) (random : Random) (k : nat)
    (result : string) : string :=
  match n with
  | O => result
  | S n' =>
      generate_loop n' random (S k)
        (result
         ++ substr chars
              (Float8.floor
                 (Float8.add
                    (Float8.mul_integer (random k)
                       (Z.of_nat (String.length chars)))
                    (Float8.of_integer 1))))
  end.

Definition generate_ref_id (random : Random) (k : nat) : string :=
  generate_loop 6 random k "ACB".

(** The [LOOP] of [auto_generate_ref_id]: references are drawn until one
    is not in the table.  The loop has no bound; [draws] is how many
    references are waited for, and [None] says that it is still drawing
    after them. *)
Fixpoint first_free (draws : nat) (random : Random) (k : nat)
    (taken : list string) : option string :=
  match draws with
  | O => None
  | S draws' =>
      let candidate := generate_ref_id random k in
      if includes taken candidate
      then first_free draws' random (k + 6) taken
      else Some candidate
  end.

(** A result, unless the loop of the trigger is still drawing. *)
Inductive Run (A : Type) :=
| still_drawing
| done (a : A).
Arguments still_drawing {A}.
Arguments done {A} a.

(** [auto_generate_ref_id], [BEFORE INSERT], under a search path: the
    reference of the new row.  The body calls [generate_ref_id()] by its
    bare name, and names [public.bookings] with its schema. *)
Definition auto_generate_ref_id (path : list Schema) (draws : nat)
    (random : Random) (taken : list string) (new_ref_id : option string)
    : Run (Raise string) :=
  let generated :=
    if resolves path "generate_ref_id" then
      match first_free draws random 0 taken with
      | Some r => done (returned r)
      | None => still_drawing
      end
    else done (raised undefined_function) in
  match new_ref_id with
  | Some r => if (r =? "")%string then generated else done (returned r)
  | None => generated
  end.

(** Upper-case letters and digits. *)
Definition is_upper_or_digit (c : ascii) : bool :=
  let n := N_of_ascii c in
  (((48 <=? n) && (n <=? 57)) || ((65 <=? n) && (n <=? 90)))%N.

Fixpoint all_chars (p : ascii -> bool) (s : string) : bool :=
  match s with
  | String c s' => p c && all_chars p s'
  | EmptyString => true
  end.

(** The form of a generated reference: ACB and six letters or digits. *)
Definition well_formed_ref (r : string) : Prop :=
  exists tail,
    r = "ACB" ++ tail
    /\ String.length tail = 6%nat
    /\ all_chars is_upper_or_digit tail = true.

(** ** The insertion *)

(** What one call meets: whether the store fails the insertion (it is
    out of reach, or a policy refuses the row), the identifier that
    [gen_random_uuid()] gives the row, the values of [random()], and for
    how many references the call is waited for. *)
Record Environment := {
  insert_fails : bool;
  uuid : string;
  random : Random;
  draws : nat
}.

(** The range of an [INTEGER] column. *)
Definition fits_integer (n : Z) : bool :=
  (- 2147483648 <=? n) && (n <=? 2147483647).

(** The branch of [create_booking_event] for [INSERT]. *)
Definition created_event (new : Booking) (evs : list BookingEvent)
    : BookingEvent :=
  {| event_id := fresh_event_id evs;
     booking_id := id new;
     event_type := "CREATED";
     location := Some (origin new);
     flight_id := None;
     notes := None |}.

(** The store after the insertion of [new]. *)
Definition store_with (db : Db) (new : Booking) : Db :=
  {| bookings := (bookings db ++ [new])%list;
     events := (events db ++ [created_event new (events db)])%list |}.

(** [from('bookings').insert({ ... }).select().single()] of a row that
    brings the reference [new_ref_id], if any: the trigger that gives the
    reference, the types and the [CHECK]s of the columns, the primary key
    and the unique reference, and the trigger that records the creation.
    [None] is an error of the store, which an error raised by a trigger
    is. *)
Definition insert_booking (env : Environment) (db : Db)
    (new_ref_id : option string) (o d : string) (p w : Z) (s : string)
    : Run (option (Booking * Db)) :=
  if insert_fails env then done None
  else
    match auto_generate_ref_id search_path (draws env) (random env)
            (map ref_id (bookings db)) new_ref_id with
    | still_drawing => still_drawing
    | done (raised _) => done None
    | done (returned r) =>
        let new := {| id := uuid env; ref_id := r; origin := o;
                      destination := d; pieces := p; weight_kg := w;
                      status := s |} in
        if negb (fits_integer p) || negb (fits_integer w)
           || negb (0 <? p) || negb (0 <? w)
           || negb (includes validStatuses s)
           || includes (map id (bookings db)) (uuid env)
           || includes (map ref_id (bookings db)) r
        then done None
        else done (Some (new, store_with db new))
    end.

(** ** The handler *)

(** [selected_route]: absent; an object whose [flights] is [undefined] or
    [null], of which [flights.length] throws; or an object with flights. *)
Inductive SelectedRoute :=
| no_route
| route_without_flights (type_ : string)
| route_with_flights (type_ : string) (flights_length : nat).

Record Request := {
  req_origin : string;
  req_destination : string;
  req_pieces : option Z;
  req_weight_kg : option Z;
  req_user_id : string;
  req_selected_route : SelectedRoute
}.

Inductive Body :=
| Created (ref_id_ id_ status_ message : string)
| Error (error : string).

Record Response := {
  http_status : Z;
  body : Body
}.

(** [!n] for a number of the request: absent, or zero. *)
Definition falsy (n : option Z) : bool :=
  match n with
  | Some v => v =? 0
  | None => true
  end.

Definition number (n : option Z) : Z :=
  match n with
  | Some v => v
  | None => 0
  end.

(** [parseInt(n)] for a number [n]: [parseInt] of [String(n)], the
    digits of [n]. *)
Definition parseInt_number (n : Z) : Z := Js.parseInt (Js.toString n).

Definition failure (code : Z) (message : string) (db : Db)
    : Run (Response * Db) :=
  done ({| http_status := code; body := Error message |}, db).

(** The handler.  The row it inserts brings no [ref_id]. *)
Definition serve (env : Environment) (db : Db) (req : Request)
    : Run (Response * Db) :=
  if negb (Js.truthy (req_origin req))
     || negb (Js.truthy (req_destination req))
     || falsy (req_pieces req) || falsy (req_weight_kg req) then
    failure 400 "Missing required fields" db
  else if (number (req_pieces req) <=? 0)
          || (number (req_weight_kg req) <=? 0) then
    failure 400 "Pieces and weight must be positive numbers" db
  else
    match insert_booking env db None (req_origin req)
            (req_destination req)
            (parseInt_number (number (req_pieces req)))
            (parseInt_number (number (req_weight_kg req)))
            "BOOKED" with
    | still_drawing => still_drawing
    | done None => failure 500 "Failed to create booking" db
    | done (Some (booking, db1)) =>
        match req_selected_route req with
        | route_without_flights _ =>
            failure 500 "Internal server error" db1
        | _ =>
            done ({| http_status := 200;
                     body := Created (ref_id booking) (id booking)
                               (status booking)
                               "Booking created successfully" |}, db1)
        end
    end.

(** The same request with another [selected_route]. *)
Definition with_route (req : Request) (route : SelectedRoute) : Request :=
  {| req_origin := req_origin req;
     req_destination := req_destination req;
     req_pieces := req_pieces req;
     req_weight_kg := req_weight_kg req;
     req_user_id := req_user_id req;
     req_selected_route := route |}.

End CreateBooking.

Module CreateSamples.
Import UpdateBookingStatus CreateBooking.

(** [random()] returning 0, then 1/2, then 0 again for ever. *)
Definition low_random : Random := fun k =>
  match k with
  | 1%nat => 2 ^ 1073
  | _ => 0
  end.

(** The number 3127499741229511 / 2^52, a little below 25/36, of which
    the product by 36 rounds to 25. *)
Definition near_25_36ths : Z := 3127499741229511 * 2 ^ 1022.

Definition quiet : Environment :=
  {| insert_fails := false; uuid := "b-2"; random := low_random;
     draws := 1 |}.

Definition two_pieces : Request :=
  {| req_origin := "DEL"; req_destination := "BOM";
     req_pieces := Some 2; req_weight_kg := Some 10;
     req_user_id := ""; req_selected_route := no_route |}.

End CreateSamples.

(* ------------------------------------------------------------------ *)
(** * The dashboard ([fetchBookings] of the page Dashboard) *)

Module Dashboard.
Import UpdateBookingStatus.





End Dashboard.

(* ------------------------------------------------------------------ *)
(** * Facts about stable sorting *)

Module StableSortFacts.
Import StableSort.

Section ByKey.
Context {A : Type} (key : A -> Z).

Lemma insert_perm (x : A) (l : list A) :
  Permutation (x :: l) (insert key x l).
Proof.
  induction l as [|y l IH]; simpl.
  - apply Permutation_refl.
  - destruct (key x <=? key y).
    + apply Permutation_refl.
    + eapply perm_trans; [apply perm_swap|].
      now apply perm_skip.
Qed.

Lemma sort_perm (l : list A) : Permutation l (sort key l).
Proof.
  induction l as [|x l IH]; simpl.
  - constructor.
  - eapply perm_trans; [apply perm_skip, IH|apply insert_perm].
Qed.

Lemma sort_In (l : list A) (x : A) : In x (sort key l) <-> In x l.
Proof.
  split; apply Permutation_in;
    [apply Permutation_sym|]; apply sort_perm.
Qed.

Lemma sort_length (l : list A) : List.length (sort key l) = List.length l.
Proof. symmetry. apply Permutation_length, sort_perm. Qed.

Lemma insert_stable (Q : A -> A -> Prop) (x : A) (l : list A) :
  Forall (Q x) l ->
  ForallOrdPairs (stably_before key Q) l ->
  ForallOrdPairs (stably_before key Q) (insert key x l).
Proof.
  intros Hx Hl. induction Hl as [|y l Hy Hl IH]; simpl.
  - repeat constructor.
  - inversion Hx as [|? ? Qxy Hx']; subst.
    destruct (Z.leb_spec (key x) (key y)) as [Hle|Hgt].
    + constructor; [|now constructor].
      constructor; [now split|].
      rewrite Forall_forall in *. intros z Hz.
      destruct (Hy z Hz) as [Hyz _].
      split; [lia|auto].
    + constructor; [|now apply IH].
      rewrite Forall_forall in *. intros z Hz.
      apply (Permutation_in _ (Permutation_sym (insert_perm x l))) in Hz.
      destruct Hz as [<-|Hz]; [|now apply Hy].
      split; [lia|intros Heq; lia].
Qed.

Lemma sort_stable (Q : A -> A -> Prop) (l : list A) :
  ForallOrdPairs Q l ->
  ForallOrdPairs (stably_before key Q) (sort key l).
Proof.
  induction 1 as [|x l Hx Hl IH]; simpl.
  - constructor.
  - apply insert_stable; [|exact IH].
    rewrite Forall_forall in *. intros z Hz.
    apply Hx. now apply sort_In.
Qed.

Lemma ForallOrdPairs_total (l : list A) :
  ForallOrdPairs (fun _ _ => True) l.
Proof.
  induction l; constructor; auto.
  rewrite Forall_forall; auto.
Qed.

Lemma sort_sorted (l : list A) :
  StronglySorted (key_le key) (sort key l).
Proof.
  pose proof (sort_stable (fun _ _ => True) l (ForallOrdPairs_total l))
    as H.
  induction H as [|x s Hx Hs IH]; constructor; auto.
  rewrite Forall_forall in *. intros z Hz. now apply Hx.
Qed.

(** Elements of one key come out in the order they went in. *)
Lemma insert_filter_key (k : Z) (x : A) (l : list A) :
  filter (has_key key k) (insert key x l) = filter (has_key key k) (x :: l).
Proof.
  induction l as [|y l IH]; [reflexivity|].
  simpl insert. destruct (Z.leb_spec (key x) (key y)) as [Hle|Hgt].
  - reflexivity.
  - simpl in *. rewrite IH. unfold has_key.
    destruct (Z.eqb_spec (key x) k), (Z.eqb_spec (key y) k);
      try reflexivity; lia.
Qed.

Lemma sort_filter_key (k : Z) (l : list A) :
  filter (has_key key k) (sort key l) = filter (has_key key k) l.
Proof.
  induction l as [|x l IH]; [reflexivity|].
  simpl sort. rewrite insert_filter_key. simpl. now rewrite IH.
Qed.

Lemma sort_NoDup_map {B : Type} (g : A -> B) (l : list A) :
  NoDup (map g l) -> NoDup (map g (sort key l)).
Proof.
  apply Permutation_NoDup, Permutation_map, sort_perm.
Qed.

Lemma sort_filter_length (p : A -> bool) (l : list A) :
  List.length (filter p (sort key l)) = List.length (filter p l).
Proof.
  induction l as [|x l IH]; [reflexivity|].
  simpl sort.
  assert (Hins : forall s, List.length (filter p (insert key x s))
                           = List.length (filter p (x :: s))).
  { induction s as [|y s IHs]; [reflexivity|].
    simpl insert. destruct (key x <=? key y); [reflexivity|].
    simpl in *. destruct (p y), (p x); simpl in *; lia. }
  rewrite Hins. simpl. destruct (p x); simpl; lia.
Qed.
End ByKey.
End StableSortFacts.

(* ------------------------------------------------------------------ *)
(** * Facts about the printing and reading of numbers *)

Module JsFacts.
Import Js.

Lemma parse_digits_uint (d : Decimal.uint) (acc : Z) :
  parse_digits acc (NilEmpty.string_of_uint d) = uint_value acc d.
Proof.
  revert acc.
  induction d; intros acc;
    cbn [NilEmpty.string_of_uint parse_digits uint_value]; trivial;
    match goal with
    | |- context [is_digit ?c] =>
        change (is_digit c) with true;
        let v := eval vm_compute in (digit_value c) in
        change (digit_value c) with v
    end;
    rewrite IHd; f_equal; lia.
Qed.

Lemma of_uint_acc_value (d : Decimal.uint) (p : positive) :
  Z.pos (Pos.of_uint_acc d p) = uint_value (Z.pos p) d.
Proof.
  revert p.
  induction d; intros p; cbn [Pos.of_uint_acc uint_value]; trivial;
    rewrite IHd; f_equal; lia.
Qed.

Lemma uint_value_of_uint (d : Decimal.uint) :
  uint_value 0 d = Z.of_uint d.
Proof.
  unfold Z.of_uint.
  induction d; cbn [Pos.of_uint uint_value]; trivial;
    rewrite ?Z.mul_0_r, ?Z.add_0_l; cbn [Z.of_N];
    rewrite ?of_uint_acc_value; trivial.
Qed.

Lemma digits_only_uint (d : Decimal.uint) :
  digits_only (NilEmpty.string_of_uint d) = true.
Proof. induction d; simpl; trivial. Qed.

Lemma string_of_uint_nonempty (d : Decimal.uint) :
  NilZero.string_of_uint d <> "".
Proof. destruct d; discriminate. Qed.

Lemma toString_pos (p : positive) :
  toString (Z.pos p) = NilEmpty.string_of_uint (Pos.to_uint p).
Proof.
  unfold toString. simpl.
  pose proof (DecimalPos.Unsigned.to_uint_nonnil p) as H.
  destruct (Pos.to_uint p); trivial. now elim H.
Qed.

(** A number that is not negative prints as its decimal digits. *)
Lemma toString_digits (n : Z) :
  0 <= n -> digits_only (toString n) = true /\ toString n <> "".
Proof.
  intros Hn. split; [|apply string_of_uint_nonempty || idtac].
  - destruct n as [|p|p]; [reflexivity| |lia].
    rewrite toString_pos. apply digits_only_uint.
  - destruct n as [|p|p]; [discriminate| |lia].
    unfold toString. simpl. apply string_of_uint_nonempty.
Qed.

Lemma parseInt_toString (n : Z) : 0 <= n -> parseInt (toString n) = n.
Proof.
  intros Hn. destruct n as [|p|p]; [reflexivity| |lia].
  rewrite toString_pos. unfold parseInt.
  rewrite parse_digits_uint, uint_value_of_uint.
  unfold Z.of_uint. now rewrite DecimalPos.Unsigned.of_to.
Qed.

(** A negative number prints as a minus sign and the digits of its
    opposite. *)
Lemma toString_neg (n : Z) : n < 0 -> toString n = String "-" (toString (- n)).
Proof.
  intros Hn. destruct n as [|p|p]; try lia.
  simpl Z.opp. rewrite toString_pos. unfold toString. simpl.
  pose proof (DecimalPos.Unsigned.to_uint_nonnil p) as H.
  destruct (Pos.to_uint p); trivial. now elim H.
Qed.

Lemma span_digits_app (d r : string) :
  digits_only d = true -> starts_with_digit r = false ->
  span_digits (d ++ r) = (d, r).
Proof.
  intros Hd Hr. induction d as [|c d IH].
  - destruct r as [|c r]; [reflexivity|].
    cbn [starts_with_digit] in Hr. cbn [append span_digits].
    now rewrite Hr.
  - cbn [digits_only] in Hd. apply andb_prop in Hd as [Hc Hd].
    cbn [append span_digits]. rewrite Hc, (IH Hd). reflexivity.
Qed.

End JsFacts.

(* ------------------------------------------------------------------ *)
(** * Facts about [calculateDuration] and [parseDuration] *)

Module DurationFacts.
Import Js JsFacts GetRoutes.

Lemma duration_match_unfold (s : string) :
  duration_match s =
  match match_here s with
  | Some groups => Some groups
  | None =>
      match s with
      | String _ s' => duration_match s'
      | EmptyString => None
      end
  end.
Proof. destruct s; reflexivity. Qed.

Lemma digit_not_space (c : ascii) : is_digit c = true -> is_space c = false.
Proof.
  unfold is_digit, is_space. intros H.
  apply andb_prop in H as [H1 H2].
  apply N.leb_le in H1. apply N.leb_le in H2.
  repeat (apply orb_false_intro);
    [apply andb_false_intro2; apply N.leb_gt; lia
    |apply N.eqb_neq; lia|apply N.eqb_neq; lia].
Qed.

Lemma skip_spaces_digits (d r : string) :
  digits_only d = true -> d <> "" -> skip_spaces (d ++ r) = d ++ r.
Proof.
  intros Hd Hne. destruct d as [|c d]; [congruence|].
  cbn [digits_only] in Hd. apply andb_prop in Hd as [Hc _].
  cbn [append skip_spaces]. now rewrite (digit_not_space c Hc).
Qed.

(** The expression at the start of a string: digits, then what
    [match_after_hours] wants. *)
Lemma match_here_digits (d r : string) :
  digits_only d = true -> d <> "" -> starts_with_digit r = false ->
  match_here (d ++ r) = match_after_hours d r.
Proof.
  intros Hd Hne Hr. unfold match_here.
  rewrite (span_digits_app d r Hd Hr).
  destruct d; [congruence|reflexivity].
Qed.

Lemma match_here_not_digit (s : string) :
  starts_with_digit s = false -> match_here s = None.
Proof.
  intros H. unfold match_here.
  destruct s as [|c s]; [reflexivity|].
  cbn [starts_with_digit] in H. cbn [span_digits]. now rewrite H.
Qed.

Lemma match_after_hours_minutes (h m : string) :
  digits_only m = true -> m <> "" ->
  match_after_hours h ("h " ++ m ++ "m") = Some (h, m).
Proof.
  intros Hm Hne. cbn [append match_after_hours].
  change (skip_spaces (String " " (m ++ "m"))) with (skip_spaces (m ++ "m")).
  rewrite (skip_spaces_digits m "m" Hm Hne).
  rewrite (span_digits_app m "m" Hm eq_refl).
  destruct m; [congruence|reflexivity].
Qed.

(** [<digits>h <digits>m] matches at its start. *)
Lemma duration_match_hm (h m : string) :
  digits_only h = true -> h <> "" -> digits_only m = true -> m <> "" ->
  duration_match (h ++ "h " ++ m ++ "m") = Some (h, m).
Proof.
  intros Hh Hhne Hm Hmne. rewrite duration_match_unfold.
  rewrite (match_here_digits h ("h " ++ m ++ "m") Hh Hhne eq_refl).
  now rewrite (match_after_hours_minutes h m Hm Hmne).
Qed.

(** Digits in front of a text that does not continue a match, and holds
    none, hold no match either. *)
Lemma duration_match_digits_none (d r : string) :
  digits_only d = true -> starts_with_digit r = false ->
  (forall h, match_after_hours h r = None) ->
  duration_match r = None ->
  duration_match (d ++ r) = None.
Proof.
  intros Hd Hr Hafter Hrest. induction d as [|c d IH]; [exact Hrest|].
  rewrite duration_match_unfold.
  rewrite (match_here_digits (String c d) r Hd ltac:(discriminate) Hr).
  rewrite Hafter. cbn [append].
  cbn [digits_only] in Hd. apply andb_prop in Hd as [_ Hd]. now apply IH.
Qed.

(** One step of the search over a character that starts no match. *)
Ltac skip_char :=
  rewrite duration_match_unfold;
  rewrite match_here_not_digit by reflexivity.

(** A minus sign in front of the minutes: no match anywhere. *)
Lemma duration_match_negative_minutes (h m : string) :
  digits_only h = true -> digits_only m = true ->
  duration_match (String "-" (h ++ "h " ++ String "-" (m ++ "m"))) = None.
Proof.
  intros Hh Hm. skip_char.
  apply duration_match_digits_none; trivial.
  cbn [append]. do 3 skip_char.
  now apply (duration_match_digits_none m "m").
Qed.

(** A minus sign in front of the hours only: the match starts after it. *)
Lemma duration_match_negative_hours (h m : string) :
  digits_only h = true -> h <> "" -> digits_only m = true -> m <> "" ->
  duration_match (String "-" (h ++ "h " ++ m ++ "m")) = Some (h, m).
Proof.
  intros Hh Hhne Hm Hmne. skip_char.
  now apply duration_match_hm.
Qed.

Lemma parse_digits_nonneg (s : string) (acc : Z) :
  0 <= acc -> 0 <= parse_digits acc s.
Proof.
  revert acc. induction s as [|c s IH]; intros acc Hacc; cbn [parse_digits].
  - exact Hacc.
  - destruct (is_digit c) eqn:Hc; [|exact Hacc].
    apply IH. unfold is_digit in Hc. apply andb_prop in Hc as [H1 _].
    apply N.leb_le in H1. unfold digit_value. lia.
Qed.

Lemma parseDuration_nonneg (d : string) : 0 <= parseDuration d.
Proof.
  unfold parseDuration. destruct (duration_match d) as [[h m]|]; [|lia].
  pose proof (parse_digits_nonneg h 0 ltac:(lia)).
  pose proof (parse_digits_nonneg m 0 ltac:(lia)).
  unfold parseInt. lia.
Qed.

Lemma parseDuration_no_match (d : string) :
  duration_match d = None -> parseDuration d = 0.
Proof. unfold parseDuration. now intros ->. Qed.

(** The text of a span that is not negative, and what is read back. *)
Lemma calculateDuration_nonneg (start end_ : Z) :
  start <= end_ ->
  let h := (end_ - start) / ms_per_hour in
  let m := ((end_ - start) mod ms_per_hour) / ms_per_minute in
  calculateDuration start end_ = toString h ++ "h " ++ toString m ++ "m"
  /\ 0 <= h /\ 0 <= m < 60
  /\ h * 60 + m = (end_ - start) / ms_per_minute.
Proof.
  intros Hle h m. unfold calculateDuration.
  assert (Hrem : Z.rem (end_ - start) ms_per_hour
                 = (end_ - start) mod ms_per_hour).
  { apply Z.rem_mod_nonneg; [lia|reflexivity]. }
  rewrite Hrem. split; [reflexivity|].
  unfold h, m, ms_per_hour, ms_per_minute in *.
  change (1000 * 60 * 60) with 3600000. change (1000 * 60) with 60000.
  pose proof (Z.div_mod (end_ - start) 3600000 ltac:(lia)) as Hdm.
  pose proof (Z.mod_pos_bound (end_ - start) 3600000 ltac:(lia)) as Hb.
  pose proof (Z.div_pos (end_ - start) 3600000 ltac:(lia) ltac:(lia)).
  set (q := (end_ - start) / 3600000) in *.
  set (r := (end_ - start) mod 3600000) in *.
  split; [lia|]. split.
  - split; [apply Z.div_pos; lia|apply Z.div_lt_upper_bound; lia].
  - rewrite Hdm. replace (3600000 * q + r) with (q * 60 * 60000 + r) by lia.
    rewrite Z.div_add_l by lia. reflexivity.
Qed.

Lemma parseDuration_calculateDuration (start end_ : Z) :
  start <= end_ ->
  parseDuration (calculateDuration start end_)
  = (end_ - start) / ms_per_hour * 60
    + ((end_ - start) mod ms_per_hour) / ms_per_minute.
Proof.
  intros Hle.
  destruct (calculateDuration_nonneg start end_ Hle) as (-> & Hh & Hm & _).
  destruct (toString_digits _ Hh) as [Hdh Hneh].
  destruct (toString_digits _ (proj1 Hm)) as [Hdm Hnem].
  unfold parseDuration. rewrite duration_match_hm by assumption.
  now rewrite !parseInt_toString by lia.
Qed.

(** The text of a negative span: the hours are negative; the minutes are
    [0] when the span is a whole number of hours and negative otherwise. *)
Lemma calculateDuration_neg (start end_ : Z) :
  end_ < start ->
  let h := - ((end_ - start) / ms_per_hour) in
  let m := - (Z.rem (end_ - start) ms_per_hour / ms_per_minute) in
  0 < h /\
  (((start - end_) mod ms_per_hour = 0 /\ m = 0 /\
    h = (start - end_) / ms_per_hour /\
    calculateDuration start end_
    = String "-" (toString h ++ "h " ++ "0" ++ "m"))
   \/
   ((start - end_) mod ms_per_hour <> 0 /\ 0 < m /\
    calculateDuration start end_
    = String "-" (toString h ++ "h " ++ String "-" (toString m ++ "m")))).
Proof.
  intros Hlt h m. unfold calculateDuration.
  unfold h, m, ms_per_hour, ms_per_minute in *.
  change (1000 * 60 * 60) with 3600000. change (1000 * 60) with 60000.
  set (d := start - end_). replace (end_ - start) with (- d) by (unfold d; lia).
  assert (Hd : 0 < d) by (unfold d; lia).
  rewrite Z.rem_opp_l by lia.
  rewrite (Z.rem_mod_nonneg d 3600000) by lia.
  pose proof (Z.div_mod d 3600000 ltac:(lia)) as Hdm.
  pose proof (Z.mod_pos_bound d 3600000 ltac:(lia)) as Hb.
  assert (Hh : - d / 3600000 < 0) by (apply Z.div_lt_upper_bound; lia).
  split; [lia|].
  rewrite (toString_neg (- d / 3600000)) by lia.
  destruct (Z.eq_dec (d mod 3600000) 0) as [Hz|Hnz].
  - left. rewrite Hz. split; [reflexivity|]. split; [reflexivity|].
    split; [|reflexivity].
    rewrite (Z.div_opp_l_z d 3600000) by lia. lia.
  - right. split; [exact Hnz|].
    assert (Hm : - (d mod 3600000) / 60000 < 0)
      by (apply Z.div_lt_upper_bound; lia).
    split; [lia|].
    now rewrite (toString_neg (- (d mod 3600000) / 60000)) by lia.
Qed.

End DurationFacts.

(* ------------------------------------------------------------------ *)
(** * Facts about the store and the route search *)

Module RouteFacts.
Import Js JsFacts GetRoutes StableSort StableSortFacts DurationFacts.

Lemma In_firstn {A : Type} (n : nat) (l : list A) (x : A) :
  In x (firstn n l) -> In x l.
Proof.
  intros H. rewrite <- (firstn_skipn n l). apply in_or_app. now left.
Qed.

Lemma rows_of_catalog (catalog : list Flight) (q : Select) :
  rows_of (catalog_store catalog q) = run_select catalog q.
Proof. reflexivity. Qed.

Lemma run_select_incl (catalog : list Flight) (q : Select) (f : Flight) :
  In f (run_select catalog q) -> In f catalog /\ matching q f = true.
Proof.
  unfold run_select, order_by_departure. intros H.
  assert (H' : In f (sort departure_datetime (filter (matching q) catalog))).
  { destruct (limit q); [eapply In_firstn; exact H|exact H]. }
  apply sort_In in H'. now apply filter_In in H'.
Qed.

Lemma run_select_all (catalog : list Flight) (q : Select) (f : Flight) :
  limit q = None ->
  In f (run_select catalog q) <-> In f catalog /\ matching q f = true.
Proof.
  intros Hq. unfold run_select, order_by_departure. rewrite Hq.
  rewrite sort_In. apply filter_In.
Qed.

Lemma serve_ok (store : Store) (o d : string) (start : Z) :
  o <> "" -> d <> "" ->
  serve store {| req_origin := o; req_destination := d;
                 req_departure_date := Some (DateAt start) |}
  = {| status := 200; body := Routes (SearchRoutes store o d start) |}.
Proof.
  intros Ho Hd. unfold serve. simpl.
  destruct o; [congruence|]. destruct d; [congruence|]. reflexivity.
Qed.

(** A response that carries routes is the search for the request. *)
Lemma serve_routes (store : Store) (req : Request)
    (routes : list RouteOption) :
  body (serve store req) = Routes routes ->
  exists start,
    req_departure_date req = Some (DateAt start)
    /\ req_origin req <> "" /\ req_destination req <> ""
    /\ status (serve store req) = 200
    /\ routes = SearchRoutes store (req_origin req) (req_destination req)
                  start.
Proof.
  unfold serve. destruct req as [o d date]. simpl.
  destruct o; simpl; [discriminate|].
  destruct d; simpl; [discriminate|].
  destruct date as [[|start]|]; simpl; try discriminate.
  intros [= <-]. exists start. repeat split; discriminate.
Qed.

Lemma In_SearchRoutes (store : Store) (o d : string) (start : Z)
    (r : RouteOption) :
  In r (SearchRoutes store o d start) <->
  In r (candidate_routes store o d start).
Proof. apply sort_In. Qed.

Lemma In_transit_routes (store : Store) (d : string) (firstFlight : Flight)
    (r : RouteOption) :
  In r (transit_routes store d firstFlight) <->
  exists secondFlight,
    r = transit_route firstFlight secondFlight
    /\ In secondFlight
          (rows_of (store (secondHopFlights_query firstFlight d)))
    /\ 2 * ms_per_hour <= layover firstFlight secondFlight.
Proof.
  unfold transit_routes. rewrite in_map_iff. split.
  - intros (s & <- & Hs). apply filter_In in Hs as [Hs Hl].
    exists s. repeat split; trivial. now apply Z.leb_le.
  - intros (s & -> & Hs & Hl). exists s. split; trivial.
    apply filter_In. split; trivial. now apply Z.leb_le.
Qed.

(** What the array [routes] holds: a direct route per row of the first
    query, and the transit routes of each row of the second. *)
Lemma In_candidate_routes (store : Store) (o d : string) (start : Z)
    (r : RouteOption) :
  In r (candidate_routes store o d start) <->
  (exists f,
      r = direct_route f
      /\ In f (rows_of (store (directFlights_query o d start
                                 (start + ms_per_day)))))
  \/ (exists firstFlight,
         In firstFlight
            (rows_of (store (firstHopFlights_query o d start
                               (start + ms_per_day))))
         /\ In r (transit_routes store d firstFlight)).
Proof.
  unfold candidate_routes. rewrite in_app_iff, in_map_iff, in_flat_map.
  split; (intros [(f & H1 & H2)|(f & H1 & H2)]; [left|right]);
    exists f; split; auto.
Qed.

Lemma first_hop_matching (o d : string) (start : Z) (f : Flight) :
  matching (firstHopFlights_query o d start (start + ms_per_day)) f = true
  <-> origin f = o /\ destination f <> d
      /\ start <= departure_datetime f < start + ms_per_day.
Proof.
  unfold matching. simpl. rewrite !andb_true_iff, negb_true_iff.
  rewrite String.eqb_eq, String.eqb_neq, Z.leb_le, Z.ltb_lt. tauto.
Qed.

Lemma second_hop_matching (firstFlight : Flight) (d : string) (f : Flight) :
  matching (secondHopFlights_query firstFlight d) f = true
  <-> origin f = destination firstFlight /\ destination f = d
      /\ arrival_datetime firstFlight <= departure_datetime f
         < arrival_datetime firstFlight + 2 * ms_per_day.
Proof.
  unfold matching. simpl. rewrite !andb_true_iff.
  rewrite !String.eqb_eq, Z.leb_le, Z.ltb_lt. tauto.
Qed.

(** ** Transit routes and the minimum layover *)

(** C1, as amended.  Every transit option that SearchRoutes returns is a
    pair of flights whose layover, the departure of the second minus the
    arrival of the first, is at least two hours.  And for a first flight of
    the catalog that leaves the origin of the query inside its day window
    for another place than its destination, every flight among the (at
    most three) rows that the second-hop query returns for it, the
    earliest departures of its window, whose layover is at least two hours
    is returned with it as a transit option. *)
Theorem transit_layover_and_coverage (catalog : list Flight) (req : Request)
    (routes : list RouteOption) :
  body (serve (catalog_store catalog) req) = Routes routes ->
  (forall r, In r routes -> type r = transit ->
     exists firstFlight secondFlight,
       flights r = [firstFlight; secondFlight]
       /\ 2 * ms_per_hour
          <= departure_datetime secondFlight - arrival_datetime firstFlight)
  /\
  (forall firstFlight secondFlight start,
     req_departure_date req = Some (DateAt start) ->
     In firstFlight catalog ->
     origin firstFlight = req_origin req ->
     destination firstFlight <> req_destination req ->
     start <= departure_datetime firstFlight < start + ms_per_day ->
     In secondFlight
        (run_select catalog
           (secondHopFlights_query firstFlight (req_destination req))) ->
     2 * ms_per_hour
       <= departure_datetime secondFlight - arrival_datetime firstFlight ->
     In (transit_route firstFlight secondFlight) routes).
Proof.
  intros Hbody.
  destruct (serve_routes _ _ _ Hbody) as (start & Hdate & _ & _ & _ & ->).
  split.
  - intros r Hr Htype.
    apply In_SearchRoutes, In_candidate_routes in Hr.
    destruct Hr as [(f & -> & _)|(f1 & _ & Hr)]; [discriminate|].
    apply In_transit_routes in Hr as (f2 & -> & _ & Hl).
    exists f1, f2. split; [reflexivity|exact Hl].
  - intros f1 f2 start' Hdate' Hin Ho Hd Hwin Hsecond Hl.
    rewrite Hdate in Hdate'. injection Hdate' as <-.
    apply In_SearchRoutes, In_candidate_routes. right. exists f1. split.
    + rewrite rows_of_catalog. apply run_select_all; [reflexivity|].
      split; [exact Hin|]. now apply first_hop_matching.
    + apply In_transit_routes. exists f2.
      rewrite rows_of_catalog. repeat split; assumption.
Qed.

Lemma transit_layover_and_coverage_witness :
  body (serve (catalog_store Samples.sample_flights) Samples.del_blr)
  = Routes (SearchRoutes (catalog_store Samples.sample_flights)
              "DEL" "BLR" Samples.day)
  /\ In (transit_route
           (Samples.flight "AI101" "Air India" (Samples.at_ 6 0)
              (Samples.at_ 8 30) "DEL" "BOM")
           (Samples.flight "6E502" "IndiGo" (Samples.at_ 13 30)
              (Samples.at_ 15 15) "BOM" "BLR"))
        (SearchRoutes (catalog_store Samples.sample_flights)
           "DEL" "BLR" Samples.day).
Proof.
  split; [reflexivity|].
  apply (proj2 (transit_layover_and_coverage Samples.sample_flights
                  Samples.del_blr _ eq_refl)) with (start := Samples.day).
  - reflexivity.
  - left. reflexivity.
  - reflexivity.
  - discriminate.
  - vm_compute. split; [discriminate|reflexivity].
  - vm_compute. auto.
  - vm_compute. discriminate.
Defined.

(** C1 as stated fails: the second-hop query is cut to three rows before
    the layover is looked at.  Here three onward flights leave BOM within
    half an hour of the arrival; the fourth, 2h15m after it, meets every
    condition of the claim and is not returned. *)
Lemma transit_coverage_counterexample :
  body (serve (catalog_store Samples.crowded_flights) Samples.del_blr)
  = Routes []
  /\ In Samples.first_leg Samples.crowded_flights
  /\ In Samples.late_leg Samples.crowded_flights
  /\ origin Samples.first_leg = "DEL"
  /\ destination Samples.first_leg = origin Samples.late_leg
  /\ destination Samples.first_leg <> "BLR"
  /\ destination Samples.late_leg = "BLR"
  /\ Samples.day <= departure_datetime Samples.first_leg
     < Samples.day + ms_per_day
  /\ arrival_datetime Samples.first_leg
     <= departure_datetime Samples.late_leg
     < arrival_datetime Samples.first_leg + 2 * ms_per_day
  /\ 2 * ms_per_hour
     <= departure_datetime Samples.late_leg
        - arrival_datetime Samples.first_leg.
Proof.
  repeat split;
    try (vm_compute; (reflexivity || discriminate || auto 10)).
Qed.

(** ** The order of the routes *)

(** A returned option is a direct flight or a pair of flights, with the
    text of the span from the first departure to the last arrival. *)
Lemma route_shape (store : Store) (o d : string) (start : Z)
    (r : RouteOption) :
  In r (SearchRoutes store o d start) ->
  exists firstFlight lastFlight,
    ((type r = direct /\ flights r = [firstFlight]
      /\ lastFlight = firstFlight)
     \/ (type r = transit /\ flights r = [firstFlight; lastFlight]))
    /\ span_of r
       = arrival_datetime lastFlight - departure_datetime firstFlight
    /\ total_duration r
       = calculateDuration (departure_datetime firstFlight)
                           (arrival_datetime lastFlight).
Proof.
  intros Hr. apply In_SearchRoutes, In_candidate_routes in Hr.
  destruct Hr as [(f & -> & _)|(f1 & _ & Hr)].
  - exists f, f. split; [left; auto|]. split; reflexivity.
  - apply In_transit_routes in Hr as (f2 & -> & _).
    exists f1, f2. split; [right; auto|]. split; reflexivity.
Qed.

(** The minutes the sort reads in the text of a span that is not
    negative are the whole minutes of the span. *)
Lemma duration_key_span (store : Store) (o d : string) (start : Z)
    (r : RouteOption) :
  In r (SearchRoutes store o d start) ->
  0 <= span_of r ->
  duration_key r = span_of r / ms_per_minute.
Proof.
  intros Hr Hspan.
  destruct (route_shape _ _ _ _ _ Hr) as (f & l & _ & Hs & Ht).
  unfold duration_key. rewrite Ht, Hs in *.
  rewrite parseDuration_calculateDuration by lia.
  destruct (calculateDuration_nonneg (departure_datetime f)
              (arrival_datetime l) ltac:(lia)) as (_ & _ & _ & H).
  exact H.
Qed.

Lemma ForallOrdPairs_impl {A : Type} (R S : A -> A -> Prop) (l : list A) :
  (forall a b, R a b -> S a b) -> ForallOrdPairs R l -> ForallOrdPairs S l.
Proof.
  intros HRS. induction 1 as [|a l Ha Hl IH]; constructor; trivial.
  eapply Forall_impl; [apply HRS|exact Ha].
Qed.

Lemma direct_then_transit (l1 l2 : list RouteOption) :
  Forall (fun r => type r = direct) l1 ->
  Forall (fun r => type r = transit) l2 ->
  ForallOrdPairs direct_first (l1 ++ l2).
Proof.
  intros H1 H2. induction H1 as [|a l1 Ha H1 IH]; simpl.
  - induction H2 as [|b l2 Hb H2 IH]; constructor; trivial.
    rewrite Forall_forall in *. intros c Hc [_ Hd].
    rewrite (H2 c Hc) in Hd. discriminate.
  - constructor; trivial.
    rewrite Forall_forall. intros c _ [Ht _]. rewrite Ha in Ht. discriminate.
Qed.

Lemma candidate_routes_direct_first (store : Store) (o d : string)
    (start : Z) :
  ForallOrdPairs direct_first (candidate_routes store o d start).
Proof.
  apply direct_then_transit; rewrite Forall_forall; intros r Hr.
  - apply in_map_iff in Hr as (f & <- & _). reflexivity.
  - apply in_flat_map in Hr as (f & _ & Hr).
    apply In_transit_routes in Hr as (g & -> & _). reflexivity.
Qed.

Lemma StronglySorted_impl_In {A : Type} (R S : A -> A -> Prop)
    (l : list A) :
  (forall a b, In a l -> In b l -> R a b -> S a b) ->
  StronglySorted R l -> StronglySorted S l.
Proof.
  intros HRS Hl. induction Hl as [|a l Hl IH Ha]; constructor.
  - apply IH. intros x y Hx Hy. apply HRS; now right.
  - rewrite Forall_forall in *. intros b Hb.
    apply HRS; [now left|now right|now apply Ha].
Qed.

(** C3, as amended.  The routes that SearchRoutes returns are in
    non-decreasing order of the minutes that the sort reads in
    [total_duration], which are the whole minutes of the duration whenever
    it is not negative; so when no returned option has a negative duration
    the routes are in non-decreasing order of their durations in whole
    minutes.  The options of one duration read are in the order in which
    the search met them, direct flights first and then the transit
    combinations; so among options of equal duration read no transit
    option is in front of a direct one. *)
Theorem routes_sorted_by_duration (store : Store) (req : Request)
    (routes : list RouteOption) :
  body (serve store req) = Routes routes ->
  StronglySorted (fun a b => duration_key a <= duration_key b) routes
  /\ (forall r, In r routes -> 0 <= span_of r ->
        duration_key r = span_of r / ms_per_minute)
  /\ ((forall r, In r routes -> 0 <= span_of r) ->
      StronglySorted
        (fun a b => span_of a / ms_per_minute <= span_of b / ms_per_minute)
        routes)
  /\ (exists start,
        req_departure_date req = Some (DateAt start)
        /\ forall k,
             filter (has_key duration_key k) routes
             = filter (has_key duration_key k)
                 (candidate_routes store (req_origin req)
                    (req_destination req) start))
  /\ ForallOrdPairs
       (fun a b => duration_key a = duration_key b -> direct_first a b)
       routes.
Proof.
  intros Hbody.
  destruct (serve_routes _ _ _ Hbody) as (start & Hdate & _ & _ & _ & ->).
  split; [apply (sort_sorted duration_key)|].
  split; [intros r; apply duration_key_span|]. split; [|split].
  - intros Hspans.
    apply (StronglySorted_impl_In
             (fun a b => duration_key a <= duration_key b));
      [|apply (sort_sorted duration_key)].
    intros a b Ha Hb Hle.
    rewrite (duration_key_span _ _ _ _ _ Ha (Hspans a Ha)) in Hle.
    rewrite (duration_key_span _ _ _ _ _ Hb (Hspans b Hb)) in Hle.
    exact Hle.
  - exists start. split; [exact Hdate|].
    intros k. apply sort_filter_key.
  - eapply ForallOrdPairs_impl;
      [|apply sort_stable, candidate_routes_direct_first].
    intros a b [_ H]. exact H.
Qed.

Lemma routes_sorted_by_duration_witness :
  body (serve (catalog_store Samples.sample_flights) Samples.del_blr)
  = Routes (SearchRoutes (catalog_store Samples.sample_flights)
              "DEL" "BLR" Samples.day)
  /\ StronglySorted (fun a b => duration_key a <= duration_key b)
       (SearchRoutes (catalog_store Samples.sample_flights)
          "DEL" "BLR" Samples.day).
Proof.
  split; [reflexivity|].
  exact (proj1 (routes_sorted_by_duration
                  (catalog_store Samples.sample_flights)
                  Samples.del_blr _ eq_refl)).
Defined.

(** C3 as stated fails: of a flight that arrives an hour before it departs
    and one of thirty minutes, both from DEL to BOM on the day asked for,
    the one of thirty minutes is returned first; the durations, [0h 30m]
    and then [-1h 0m], go down. *)
Lemma duration_order_counterexample :
  body (serve (catalog_store [Samples.hour_back_flight;
                              Samples.short_flight]) Samples.del_bom)
  = Routes [direct_route Samples.short_flight;
            direct_route Samples.hour_back_flight]
  /\ total_duration (direct_route Samples.short_flight) = "0h 30m"
  /\ total_duration (direct_route Samples.hour_back_flight) = "-1h 0m"
  /\ span_of (direct_route Samples.short_flight) = 30 * ms_per_minute
  /\ span_of (direct_route Samples.hour_back_flight) = - ms_per_hour
  /\ ~ StronglySorted (fun a b => span_of a <= span_of b)
         [direct_route Samples.short_flight;
          direct_route Samples.hour_back_flight].
Proof.
  split; [reflexivity|]. split; [reflexivity|]. split; [reflexivity|].
  split; [reflexivity|]. split; [reflexivity|].
  intros H. inversion H as [|a l _ Hall]; subst.
  inversion Hall as [|b l' Hle _]; subst.
  vm_compute in Hle. now apply Hle.
Qed.

(** The search on the flights of the migration, from DEL to BLR. *)
Example sample_search :
  map (fun r => (type r, map id (flights r), total_duration r))
      (SearchRoutes (catalog_store Samples.sample_flights)
         "DEL" "BLR" Samples.day)
  = [(direct, ["AI701"], "2h 45m");
     (direct, ["6E802"], "2h 45m");
     (transit, ["AI101"; "6E502"], "9h 15m");
     (transit, ["6E202"; "SG603"], "11h 15m");
     (transit, ["AI101"; "SG603"], "14h 30m")].
Proof. vm_compute. reflexivity. Qed.

(** ** The cap on second hops *)

Lemma StronglySorted_app_le {A : Type} (R : A -> A -> Prop)
    (l1 l2 : list A) :
  StronglySorted R (l1 ++ l2) ->
  forall a b, In a l1 -> In b l2 -> R a b.
Proof.
  induction l1 as [|x l1 IH]; simpl; intros Hs a b Ha Hb; [easy|].
  apply StronglySorted_inv in Hs as [Hs Hx].
  destruct Ha as [<-|Ha]; [|now apply IH].
  rewrite Forall_forall in Hx. apply Hx, in_or_app. now right.
Qed.

Lemma NoDup_map_filter {A B : Type} (g : A -> B) (p : A -> bool)
    (l : list A) :
  NoDup (map g l) -> NoDup (map g (filter p l)).
Proof.
  induction l as [|x l IH]; simpl; intros H; [constructor|].
  inversion H as [|? ? Hx Hl]; subst.
  destruct (p x); simpl; [constructor|]; auto.
  intros Hin. apply Hx. apply in_map_iff in Hin as (y & Hy & Hin).
  apply in_map_iff. exists y. split; trivial.
  now apply filter_In in Hin.
Qed.

Lemma run_select_NoDup (catalog : list Flight) (q : Select) :
  limit q = None ->
  NoDup (map id catalog) -> NoDup (map id (run_select catalog q)).
Proof.
  intros Hq H. unfold run_select, order_by_departure. rewrite Hq.
  now apply sort_NoDup_map, NoDup_map_filter.
Qed.

Lemma transit_routes_length (catalog : list Flight) (d : string)
    (firstFlight : Flight) :
  (List.length (transit_routes (catalog_store catalog) d firstFlight)
   <= 3)%nat.
Proof.
  unfold transit_routes. rewrite length_map, rows_of_catalog.
  eapply Nat.le_trans; [apply filter_length_le|].
  change (run_select catalog (secondHopFlights_query firstFlight d))
    with (firstn 3 (order_by_departure
                      (filter (matching
                                 (secondHopFlights_query firstFlight d))
                              catalog))).
  apply firstn_le_length.
Qed.

Lemma led_by_transit_routes (store : Store) (d : string)
    (firstFlight : Flight) (i : string) (r : RouteOption) :
  In r (transit_routes store d firstFlight) ->
  led_by i r = (id firstFlight =? i)%string.
Proof.
  intros Hr. apply In_transit_routes in Hr as (g & -> & _). reflexivity.
Qed.

Lemma filter_none {A : Type} (p : A -> bool) (l : list A) :
  (forall x, In x l -> p x = false) -> filter p l = [].
Proof.
  induction l as [|x l IH]; simpl; intros H; [reflexivity|].
  rewrite (H x) by now left. apply IH. intros y Hy. apply H. now right.
Qed.

(** Rows of distinct identifiers: the routes led by one identifier come
    from one iteration of the loop. *)
Lemma led_by_flat_map (catalog : list Flight) (d i : string)
    (hops : list Flight) :
  NoDup (map id hops) ->
  (List.length
     (filter (led_by i)
        (flat_map (transit_routes (catalog_store catalog) d) hops))
   <= 3)%nat.
Proof.
  induction hops as [|f hops IH]; simpl; intros Hnd; [lia|].
  inversion Hnd as [|? ? Hf Hrest]; subst.
  rewrite filter_app, length_app.
  destruct (String.eqb_spec (id f) i) as [Heq|Hne].
  - rewrite (filter_none (led_by i) (flat_map _ hops)).
    + pose proof (filter_length_le (led_by i)
                    (transit_routes (catalog_store catalog) d f)).
      pose proof (transit_routes_length catalog d f). simpl. lia.
    + intros r Hr. apply in_flat_map in Hr as (g & Hg & Hr).
      rewrite (led_by_transit_routes _ _ _ i _ Hr).
      apply String.eqb_neq. intros Hgi. apply Hf.
      apply in_map_iff. exists g. split; [congruence|exact Hg].
  - rewrite (filter_none (led_by i) (transit_routes _ d f)).
    + simpl. now apply IH.
    + intros r Hr. rewrite (led_by_transit_routes _ _ _ i _ Hr).
      now apply String.eqb_neq.
Qed.

(** C7.  For a first hop, the store hands over at most three second hops:
    the first three, in order of departure, of the flights of the catalog
    that match the second-hop query, so that no flight left out departs
    before one taken.  The loop pushes at most three transit options for
    it and, the rows of the catalog having distinct identifiers, at most
    three options of the output are led by it. *)
Theorem second_hop_capped (catalog : list Flight) (o d : string)
    (start : Z) (firstFlight : Flight) :
  NoDup (map id catalog) ->
  let q := secondHopFlights_query firstFlight d in
  let taken := rows_of (catalog_store catalog q) in
  let window := filter (matching q) catalog in
  taken = firstn 3 (order_by_departure window)
  /\ (List.length taken <= 3)%nat
  /\ (forall f g, In f taken -> In g window -> ~ In g taken ->
        departure_datetime f <= departure_datetime g)
  /\ (List.length (transit_routes (catalog_store catalog) d firstFlight)
      <= 3)%nat
  /\ (List.length
        (filter (led_by (id firstFlight))
           (SearchRoutes (catalog_store catalog) o d start)) <= 3)%nat.
Proof.
  intros Hnd q taken window.
  assert (Htaken : taken = firstn 3 (order_by_departure window))
    by reflexivity.
  split; [exact Htaken|]. split; [rewrite Htaken; apply firstn_le_length|].
  split; [|split; [apply transit_routes_length|]].
  - intros f g Hf Hg Hng. rewrite Htaken in Hf, Hng.
    pose proof (sort_sorted departure_datetime window) as Hs.
    fold (order_by_departure window) in Hs.
    rewrite <- (firstn_skipn 3 (order_by_departure window)) in Hs.
    apply (StronglySorted_app_le _ _ _ Hs f g Hf).
    assert (Hin : In g (order_by_departure window))
      by (apply sort_In; exact Hg).
    rewrite <- (firstn_skipn 3 (order_by_departure window)) in Hin.
    apply in_app_or in Hin as [Hin|Hin]; [contradiction|exact Hin].
  - unfold SearchRoutes, sort_routes. rewrite sort_filter_length.
    unfold candidate_routes. rewrite filter_app, length_app.
    rewrite (filter_none (led_by (id firstFlight)) (map direct_route _)).
    + simpl. apply led_by_flat_map. rewrite rows_of_catalog.
      now apply run_select_NoDup.
    + intros r Hr. apply in_map_iff in Hr as (f & <- & _). reflexivity.
Qed.

Lemma second_hop_capped_witness :
  NoDup (map id Samples.crowded_flights)
  /\ rows_of (catalog_store Samples.crowded_flights
               (secondHopFlights_query Samples.first_leg "BLR"))
     = firstn 3 (order_by_departure
                   (filter (matching (secondHopFlights_query
                                        Samples.first_leg "BLR"))
                           Samples.crowded_flights)).
Proof.
  assert (H : NoDup (map id Samples.crowded_flights)).
  { simpl. repeat constructor; simpl; intuition discriminate. }
  split; [exact H|].
  exact (proj1 (second_hop_capped Samples.crowded_flights "DEL" "BLR"
                  Samples.day Samples.first_leg H)).
Defined.

(** ** The duration of a route *)

(** C8, as amended.  The [total_duration] of every option that SearchRoutes
    returns is the text [calculateDuration] makes of the departure of its
    first flight and the arrival of its last (or only) one.  When that
    arrival is not before that departure, the text is the whole hours of
    the span and the whole minutes left, both rounded down, the minutes
    below sixty, and none of them is negative. *)
Theorem total_duration_of_route (store : Store) (req : Request)
    (routes : list RouteOption) (r : RouteOption) :
  body (serve store req) = Routes routes ->
  In r routes ->
  exists firstFlight lastFlight,
    ((type r = direct /\ flights r = [firstFlight]
      /\ lastFlight = firstFlight)
     \/ (type r = transit /\ flights r = [firstFlight; lastFlight]))
    /\ span_of r
       = arrival_datetime lastFlight - departure_datetime firstFlight
    /\ total_duration r
       = calculateDuration (departure_datetime firstFlight)
                           (arrival_datetime lastFlight)
    /\ (0 <= span_of r ->
        let h := span_of r / ms_per_hour in
        let m := (span_of r mod ms_per_hour) / ms_per_minute in
        total_duration r = toString h ++ "h " ++ toString m ++ "m"
        /\ 0 <= h /\ 0 <= m < 60
        /\ h * 60 + m = span_of r / ms_per_minute).
Proof.
  intros Hbody Hr.
  destruct (serve_routes _ _ _ Hbody) as (start & _ & _ & _ & _ & ->).
  destruct (route_shape _ _ _ _ _ Hr) as (f & l & Hshape & Hs & Ht).
  exists f, l. split; [exact Hshape|]. split; [exact Hs|].
  split; [exact Ht|].
  intros Hspan. rewrite Ht, Hs in *.
  apply calculateDuration_nonneg. lia.
Qed.

Lemma total_duration_of_route_witness :
  body (serve (catalog_store [Samples.short_flight]) Samples.del_bom)
  = Routes [direct_route Samples.short_flight]
  /\ In (direct_route Samples.short_flight)
        [direct_route Samples.short_flight]
  /\ exists firstFlight lastFlight,
       ((type (direct_route Samples.short_flight) = direct
         /\ flights (direct_route Samples.short_flight) = [firstFlight]
         /\ lastFlight = firstFlight)
        \/ (type (direct_route Samples.short_flight) = transit
            /\ flights (direct_route Samples.short_flight)
               = [firstFlight; lastFlight]))
       /\ total_duration (direct_route Samples.short_flight)
          = calculateDuration (departure_datetime firstFlight)
                              (arrival_datetime lastFlight).
Proof.
  assert (Hb : body (serve (catalog_store [Samples.short_flight])
                       Samples.del_bom)
               = Routes [direct_route Samples.short_flight])
    by (vm_compute; reflexivity).
  assert (Hi : In (direct_route Samples.short_flight)
                  [direct_route Samples.short_flight])
    by (left; reflexivity).
  split; [exact Hb|]. split; [exact Hi|].
  destruct (total_duration_of_route _ _ _ _ Hb Hi)
    as (f & l & Hshape & _ & Htext & _).
  exists f, l. split; assumption.
Defined.

(** C8 as stated fails: the duration is negative for a row of the catalog
    whose arrival is before its departure. *)
Lemma negative_duration_counterexample :
  body (serve (catalog_store [Samples.backwards_flight]) Samples.del_bom)
  = Routes [direct_route Samples.backwards_flight]
  /\ flights (direct_route Samples.backwards_flight)
     = [Samples.backwards_flight]
  /\ arrival_datetime Samples.backwards_flight
     - departure_datetime Samples.backwards_flight < 0
  /\ span_of (direct_route Samples.backwards_flight) < 0
  /\ total_duration (direct_route Samples.backwards_flight) = "-3h -30m".
Proof. repeat split. Qed.

(** ** A store that fails *)

(** C5: the code at the failing input.  Every query of the handler is
    answered with [{ data: null, error }]; the handler reads [data] only,
    finds no rows, and answers 200 with no routes, as it does for a catalog
    in which nothing matches. *)
Theorem store_failure_answered_as_success (message : string) :
  (forall o d start, SearchRoutes (failing_store message) o d start = [])
  /\ serve (failing_store message) Samples.del_blr
     = {| status := 200; body := Routes [] |}
  /\ serve (catalog_store []) Samples.del_blr
     = {| status := 200; body := Routes [] |}.
Proof. repeat split. Qed.

(** ** Durations read back by the sort *)

(** C10, as amended.  For [start <= end], [parseDuration] reads back from
    the text of [calculateDuration] the whole hours of the span times
    sixty plus the whole minutes left.  A text in which the expression
    finds no match reads as [0]; that is the text of a negative span which
    is not a whole number of hours.  A negative span of a whole number of
    hours reads as those hours, in minutes.  In the sorted routes nothing is
    in front of an option that reads as [0] but options that read as [0]. *)
Theorem duration_read_back :
  (forall start end_,
      start <= end_ ->
      parseDuration (calculateDuration start end_)
      = (end_ - start) / ms_per_hour * 60
        + ((end_ - start) mod ms_per_hour) / ms_per_minute)
  /\ (forall d, duration_match d = None -> parseDuration d = 0)
  /\ (forall start end_,
        end_ < start -> (start - end_) mod ms_per_hour <> 0 ->
        duration_match (calculateDuration start end_) = None)
  /\ (forall start end_,
        end_ < start -> (start - end_) mod ms_per_hour = 0 ->
        parseDuration (calculateDuration start end_)
        = (start - end_) / ms_per_hour * 60)
  /\ (forall routes,
        ForallOrdPairs
          (fun a b => duration_key b = 0 -> duration_key a = 0)
          (sort_routes routes)).
Proof.
  split; [exact parseDuration_calculateDuration|].
  split; [exact parseDuration_no_match|].
  split; [|split].
  - intros start end_ Hlt Hrem.
    destruct (calculateDuration_neg start end_ Hlt)
      as [Hh [(Hz & _)|(_ & Hm & ->)]]; [contradiction|].
    apply duration_match_negative_minutes;
      apply toString_digits; lia.
  - intros start end_ Hlt Hrem.
    destruct (calculateDuration_neg start end_ Hlt)
      as [Hh [(_ & _ & Hq & ->)|(Hnz & _)]]; [|contradiction].
    unfold parseDuration.
    destruct (toString_digits _ (Z.lt_le_incl _ _ Hh)) as [Hd Hne].
    rewrite (duration_match_negative_hours _ "0" Hd Hne eq_refl)
      by discriminate.
    rewrite parseInt_toString by lia. rewrite Hq.
    change (parseInt "0") with 0. lia.
  - intros routes.
    eapply ForallOrdPairs_impl;
      [|apply (sort_stable duration_key (fun _ _ => True)),
          ForallOrdPairs_total].
    intros a b [Hle _] Hb. unfold duration_key in *.
    pose proof (parseDuration_nonneg (total_duration a)). lia.
Qed.

Lemma duration_read_back_witness :
  parseDuration (calculateDuration (Samples.at_ 6 0) (Samples.at_ 8 30))
  = 150
  /\ duration_match (calculateDuration (Samples.at_ 6 0) (Samples.at_ 3 30))
     = None
  /\ parseDuration (calculateDuration (Samples.at_ 6 0) (Samples.at_ 4 0))
     = 120.
Proof.
  destruct duration_read_back as (H1 & _ & H3 & H4 & _).
  split; [|split].
  - rewrite (H1 (Samples.at_ 6 0) (Samples.at_ 8 30)); [reflexivity|].
    vm_compute. discriminate.
  - apply (H3 (Samples.at_ 6 0) (Samples.at_ 3 30)).
    + vm_compute. reflexivity.
    + vm_compute. discriminate.
  - rewrite (H4 (Samples.at_ 6 0) (Samples.at_ 4 0)); [reflexivity| |].
    + vm_compute. reflexivity.
    + vm_compute. reflexivity.
Defined.

(** C10 as stated fails: a span of minus one hour prints as [-1h 0m], in
    which the expression matches [1h 0m]; it reads as sixty minutes, and
    the option is placed after one of thirty minutes. *)
Lemma hour_back_counterexample :
  arrival_datetime Samples.hour_back_flight
  < departure_datetime Samples.hour_back_flight
  /\ calculateDuration (departure_datetime Samples.hour_back_flight)
                       (arrival_datetime Samples.hour_back_flight)
     = "-1h 0m"
  /\ parseDuration "-1h 0m" = 60
  /\ body (serve (catalog_store [Samples.hour_back_flight;
                                 Samples.short_flight]) Samples.del_bom)
     = Routes [direct_route Samples.short_flight;
               direct_route Samples.hour_back_flight]
  /\ total_duration (direct_route Samples.short_flight) = "0h 30m".
Proof. repeat split. Qed.

End RouteFacts.

(* ------------------------------------------------------------------ *)
(** * Facts about the status transitions *)

Module BookingFacts.
Import Js UpdateBookingStatus.

Lemma listed_validTransitions (current requested : string) :
  listed validTransitions current requested = true
  <-> allowed current requested.
Proof.
  unfold listed, validTransitions, property, allowed, includes, existsb.
  repeat match goal with
         | |- context [String.eqb ?a ?b] =>
             destruct (String.eqb_spec a b); subst
         end;
    simpl; split; intros H; try discriminate; try reflexivity;
    intuition (try discriminate; try congruence).
Qed.

Lemma allowed_changes (current requested : string) :
  allowed current requested -> current <> requested.
Proof. unfold allowed. intuition (subst; discriminate). Qed.

Lemma includes_truthy (s : string) :
  includes validStatuses s = true -> truthy s = true.
Proof. destruct s; [discriminate|reflexivity]. Qed.

Lemma nonempty_truthy (s : string) : s <> "" -> truthy s = true.
Proof. destruct s; [congruence|reflexivity]. Qed.

Lemma includes_In (l : list string) (s : string) :
  includes l s = true <-> In s l.
Proof.
  unfold includes. rewrite existsb_exists. split.
  - intros (x & Hx & Heq). apply String.eqb_eq in Heq. now subst.
  - intros H. exists s. split; [exact H|apply String.eqb_refl].
Qed.

Lemma fetch_booking_found (f : Faults) (db : Db) (r : string) (b : Booking) :
  fetch_booking f db r = Some b ->
  single (filter (has_ref_id r) (bookings db)) = Some b
  /\ has_ref_id r b = true.
Proof.
  unfold fetch_booking. destruct (fetch_booking_fails f); [discriminate|].
  intros H. split; [exact H|].
  destruct (filter (has_ref_id r) (bookings db)) as [|x [|y l]] eqn:Hf;
    try discriminate.
  injection H as <-.
  assert (Hin : In x (filter (has_ref_id r) (bookings db)))
    by (rewrite Hf; now left).
  now apply filter_In in Hin.
Qed.

(** ** The branches of the handler *)

Section Branches.
Context (table : TransitionTable) (f : Faults) (db : Db) (req : Request)
        (b : Booking).
Hypothesis Href : req_ref_id req <> "".
Hypothesis Hknown : includes validStatuses (req_status req) = true.
Hypothesis Hfound : fetch_booking f db (req_ref_id req) = Some b.

Lemma serve_with_found :
  serve_with table f db req =
  if negb (listed table (status b) (req_status req)) then
    failure 400 (cannot_change (status b) (req_status req)) db
  else if (req_status req =? "CANCELLED")%string
          && includes ["ARRIVED"; "DELIVERED"] (status b) then
    failure 400 "Cannot cancel booking that has already arrived" db
  else
    match update_booking f db (req_ref_id req) (req_status req) with
    | None => failure 500 "Failed to update booking status" db
    | Some (updatedBooking, db1) =>
        (updated updatedBooking,
         patch_latest_event f db1 updatedBooking req)
    end.
Proof.
  unfold serve_with.
  rewrite (nonempty_truthy _ Href), (includes_truthy _ Hknown), Hknown, Hfound.
  reflexivity.
Qed.

Lemma update_booking_found :
  update_booking f db (req_ref_id req) (req_status req) =
  if update_booking_fails f then None
  else Some (with_status b (req_status req),
             set_status db (req_ref_id req) (req_status req) b).
Proof.
  unfold update_booking.
  destruct (fetch_booking_found _ _ _ _ Hfound) as [-> _]. reflexivity.
Qed.
End Branches.

Lemma serve_with_missing (table : TransitionTable) (f : Faults) (db : Db)
    (req : Request) :
  req_ref_id req <> "" ->
  includes validStatuses (req_status req) = true ->
  fetch_booking f db (req_ref_id req) = None ->
  serve_with table f db req = failure 404 "Booking not found" db.
Proof.
  intros Href Hknown Hnone. unfold serve_with.
  rewrite (nonempty_truthy _ Href), (includes_truthy _ Hknown), Hknown, Hnone.
  reflexivity.
Qed.

(** ** The store after an accepted transition *)

Lemma patch_latest_event_bookings (f : Faults) (db : Db) (u : Booking)
    (req : Request) :
  bookings (patch_latest_event f db u req) = bookings db.
Proof.
  unfold patch_latest_event, update_event.
  destruct (truthy (req_notes req) || truthy (req_flight_id req));
    [|reflexivity].
  destruct (fetch_latest_event f db (id u)); [|reflexivity].
  destruct (update_event_fails f); reflexivity.
Qed.

Lemma filter_set_status (r s : string) (l : list Booking) :
  filter (has_ref_id r)
         (map (fun b => if has_ref_id r b then with_status b s else b) l)
  = map (fun b => with_status b s) (filter (has_ref_id r) l).
Proof.
  induction l as [|x l IH]; [reflexivity|]. simpl.
  destruct (has_ref_id r x) eqn:Hx.
  - change (has_ref_id r (with_status x s)) with (has_ref_id r x).
    rewrite Hx. simpl. now rewrite IH.
  - rewrite Hx. exact IH.
Qed.

Lemma status_of_set_status (db : Db) (r s : string) (old : Booking) :
  single (filter (has_ref_id r) (bookings db)) = Some old ->
  status_of (set_status db r s old) r = Some s.
Proof.
  intros H. unfold status_of, set_status. simpl.
  rewrite filter_set_status.
  destruct (filter (has_ref_id r) (bookings db)) as [|x [|y l]];
    try discriminate.
  injection H as <-. reflexivity.
Qed.

Lemma events_set_status (db : Db) (r s : string) (old : Booking) :
  status old <> s ->
  events (set_status db r s old)
  = (events db ++ [status_event (with_status old s) (events db)])%list.
Proof.
  intros Hne. unfold set_status, create_booking_event. simpl.
  apply String.eqb_neq in Hne. now rewrite Hne.
Qed.

Lemma event_id_below_fresh (evs : list BookingEvent) (e : BookingEvent) :
  In e evs -> Nat.eqb (event_id e) (fresh_event_id evs) = false.
Proof.
  intros Hin. apply Nat.eqb_neq. unfold fresh_event_id.
  assert (H : (event_id e <= list_max (map event_id evs))%nat).
  { pose proof (proj1 (list_max_le (map event_id evs)
                         (list_max (map event_id evs))) (Nat.le_refl _))
      as Hall.
    rewrite Forall_forall in Hall. apply Hall. now apply in_map. }
  lia.
Qed.

Lemma latest_event_after_insert (f : Faults) (bs : list Booking)
    (evs : list BookingEvent) (new : Booking) :
  fetch_latest_event_fails f = false ->
  fetch_latest_event f
    {| bookings := bs; events := (evs ++ [status_event new evs])%list |}
    (id new)
  = Some (status_event new evs).
Proof.
  intros Hf. unfold fetch_latest_event. rewrite Hf. simpl events.
  rewrite filter_app. simpl. rewrite String.eqb_refl.
  rewrite rev_app_distr. reflexivity.
Qed.

Lemma update_fresh_event (evs : list BookingEvent) (e : BookingEvent)
    (n fl : option string) :
  event_id e = fresh_event_id evs ->
  map (fun x => if Nat.eqb (event_id x) (event_id e)
                then patch_event n fl x else x) (evs ++ [e])
  = (evs ++ [patch_event n fl e])%list.
Proof.
  intros He. rewrite map_app. simpl. rewrite Nat.eqb_refl. f_equal.
  rewrite <- (map_id evs) at 2. apply map_ext_in.
  intros x Hx. rewrite He. now rewrite (event_id_below_fresh evs x Hx).
Qed.

(** The events after an accepted transition: the event the trigger
    inserted, which carries the notes and the flight of the request when
    they were asked for and the store failed neither call. *)
Lemma events_after_patch (f : Faults) (db : Db) (req : Request)
    (old : Booking) :
  status old <> req_status req ->
  let new := with_status old (req_status req) in
  let ev := status_event new (events db) in
  let patched :=
    patch_event (or_else (req_notes req) (notes ev))
                (or_else (req_flight_id req) (flight_id ev)) ev in
  events (patch_latest_event f
            (set_status db (req_ref_id req) (req_status req) old) new req)
  = if (truthy (req_notes req) || truthy (req_flight_id req))
       && negb (fetch_latest_event_fails f)
       && negb (update_event_fails f)
    then (events db ++ [patched])%list
    else (events db ++ [ev])%list.
Proof.
  intros Hne new ev patched. unfold patch_latest_event.
  pose proof (events_set_status db (req_ref_id req) _ old Hne) as Hev.
  destruct (truthy (req_notes req) || truthy (req_flight_id req));
    [|exact Hev].
  destruct (fetch_latest_event_fails f) eqn:Hl.
  - unfold fetch_latest_event. rewrite Hl. exact Hev.
  - unfold set_status in *. simpl in Hev. rewrite Hev.
    rewrite (latest_event_after_insert f _ _ _ Hl).
    unfold update_event. destruct (update_event_fails f); [reflexivity|].
    exact (update_fresh_event (events db) ev _ _ eq_refl).
Qed.

(** ** The transition table *)

Lemma allowed_not_guarded (current requested : string) :
  allowed current requested ->
  (requested =? "CANCELLED")%string
  && includes ["ARRIVED"; "DELIVERED"] current = false.
Proof.
  unfold allowed.
  intros [[-> _]|[[-> ->]|[-> ->]]]; try reflexivity.
  apply andb_false_r.
Qed.

Lemma serve_allowed (f : Faults) (db : Db) (req : Request) (b : Booking) :
  req_ref_id req <> "" ->
  includes validStatuses (req_status req) = true ->
  fetch_booking f db (req_ref_id req) = Some b ->
  allowed (status b) (req_status req) ->
  serve f db req =
  if update_booking_fails f
  then failure 500 "Failed to update booking status" db
  else (updated (with_status b (req_status req)),
        patch_latest_event f
          (set_status db (req_ref_id req) (req_status req) b)
          (with_status b (req_status req)) req).
Proof.
  intros Href Hknown Hfound Hal. unfold serve.
  rewrite (serve_with_found _ _ _ _ _ Href Hknown Hfound).
  rewrite (proj2 (listed_validTransitions _ _) Hal).
  rewrite (allowed_not_guarded _ _ Hal). simpl negb. cbv iota.
  rewrite (update_booking_found _ _ _ _ Hfound).
  destruct (update_booking_fails f); reflexivity.
Qed.

Lemma serve_not_allowed (f : Faults) (db : Db) (req : Request)
    (b : Booking) :
  req_ref_id req <> "" ->
  includes validStatuses (req_status req) = true ->
  fetch_booking f db (req_ref_id req) = Some b ->
  ~ allowed (status b) (req_status req) ->
  serve f db req
  = failure 400 (cannot_change (status b) (req_status req)) db.
Proof.
  intros Href Hknown Hfound Hal. unfold serve.
  rewrite (serve_with_found _ _ _ _ _ Href Hknown Hfound).
  destruct (listed validTransitions (status b) (req_status req)) eqn:Hl;
    [|reflexivity].
  now apply listed_validTransitions in Hl.
Qed.

(** C2.  For a booking that exists and a requested status among the five
    known ones: when the pair is not in the transition table the call
    fails with status 400 and the message "Cannot change status from C to
    S", and the store is left as it was; when it is in the table the call
    succeeds with the booking in the requested status, unless the store
    fails the update (then it fails with status 500).  So, the store not
    failing the update, the call succeeds exactly when the pair is in the
    table; and no pair is in the table for DELIVERED or CANCELLED. *)
Theorem transition_table_decides (f : Faults) (db : Db) (req : Request)
    (b : Booking) :
  req_ref_id req <> "" ->
  In (req_status req) validStatuses ->
  fetch_booking f db (req_ref_id req) = Some b ->
  (~ allowed (status b) (req_status req) ->
   serve f db req
   = failure 400 ("Cannot change status from " ++ status b ++ " to "
                   ++ req_status req) db)
  /\ (allowed (status b) (req_status req) ->
      serve f db req =
      if update_booking_fails f
      then failure 500 "Failed to update booking status" db
      else (updated (with_status b (req_status req)),
            patch_latest_event f
              (set_status db (req_ref_id req) (req_status req) b)
              (with_status b (req_status req)) req))
  /\ (update_booking_fails f = false ->
      (http_status (fst (serve f db req)) = 200
       <-> allowed (status b) (req_status req))
      /\ (allowed (status b) (req_status req) ->
          status_of (snd (serve f db req)) (req_ref_id req)
          = Some (req_status req)))
  /\ (status b = "DELIVERED" \/ status b = "CANCELLED" ->
      ~ allowed (status b) (req_status req)).
Proof.
  intros Href Hin Hfound. apply includes_In in Hin.
  split; [exact (serve_not_allowed f db req b Href Hin Hfound)|].
  split; [exact (serve_allowed f db req b Href Hin Hfound)|].
  split.
  - intros Hup. split; [split|].
    + intros H200.
      destruct (listed validTransitions (status b) (req_status req)) eqn:Hl;
        [now apply listed_validTransitions|].
      rewrite (serve_not_allowed f db req b Href Hin Hfound) in H200;
        [discriminate|].
      intros Hal. apply listed_validTransitions in Hal. congruence.
    + intros Hal.
      rewrite (serve_allowed f db req b Href Hin Hfound Hal), Hup.
      reflexivity.
    + intros Hal.
      rewrite (serve_allowed f db req b Href Hin Hfound Hal), Hup.
      unfold status_of. simpl snd. rewrite patch_latest_event_bookings.
      apply status_of_set_status.
      exact (proj1 (fetch_booking_found _ _ _ _ Hfound)).
  - unfold allowed. intros [H|H]; rewrite H;
      intuition discriminate.
Qed.

Lemma transition_table_decides_witness :
  serve no_faults (BookingSamples.db_with "DELIVERED")
        (BookingSamples.request "CANCELLED" "")
  = failure 400 "Cannot change status from DELIVERED to CANCELLED"
            (BookingSamples.db_with "DELIVERED")
  /\ (http_status (fst (serve no_faults (BookingSamples.db_with "BOOKED")
                          (BookingSamples.request "DEPARTED" ""))) = 200
      <-> allowed "BOOKED" "DEPARTED").
Proof.
  pose proof (transition_table_decides no_faults
                (BookingSamples.db_with "DELIVERED")
                (BookingSamples.request "CANCELLED" "")
                (BookingSamples.booking "DELIVERED")
                ltac:(discriminate) ltac:(simpl; auto 10) eq_refl) as H1.
  pose proof (transition_table_decides no_faults
                (BookingSamples.db_with "BOOKED")
                (BookingSamples.request "DEPARTED" "")
                (BookingSamples.booking "BOOKED")
                ltac:(discriminate) ltac:(simpl; auto 10) eq_refl) as H2.
  split.
  - apply (proj1 H1). unfold allowed. simpl. intuition discriminate.
  - exact (proj1 (proj1 (proj2 (proj2 H2)) eq_refl)).
Defined.

(** ** What a call leaves in the store *)

(** C4, as amended.  A call that does not answer 200 leaves the store, and
    so the status of the booking, as it was.  A call that answers 200 has
    put the booking in the requested status and the trigger has recorded
    the event of it; the notes and the flight of the request are written
    on that event when they were given and the store failed neither the
    look-up of the latest event nor its update, and otherwise the event is
    left as the trigger made it: the status is not taken back. *)
Theorem status_update_without_rollback (f : Faults) (db : Db)
    (req : Request) :
  (http_status (fst (serve f db req)) <> 200 -> snd (serve f db req) = db)
  /\ (http_status (fst (serve f db req)) = 200 ->
      exists old,
        fetch_booking f db (req_ref_id req) = Some old
        /\ allowed (status old) (req_status req)
        /\ fst (serve f db req) = updated (with_status old (req_status req))
        /\ status_of (snd (serve f db req)) (req_ref_id req)
           = Some (req_status req)
        /\ events (snd (serve f db req))
           = let ev := status_event (with_status old (req_status req))
                                    (events db) in
             if (truthy (req_notes req) || truthy (req_flight_id req))
                && negb (fetch_latest_event_fails f)
                && negb (update_event_fails f)
             then (events db
                   ++ [patch_event
                         (or_else (req_notes req) (notes ev))
                         (or_else (req_flight_id req) (flight_id ev))
                         ev])%list
             else (events db ++ [ev])%list).
Proof.
  destruct (string_dec (req_ref_id req) "") as [Href|Href].
  { unfold serve, serve_with. rewrite Href. simpl.
    split; [reflexivity|discriminate]. }
  destruct (includes validStatuses (req_status req)) eqn:Hknown.
  2:{ unfold serve, serve_with. rewrite Hknown.
      destruct (negb (truthy (req_ref_id req))
                || negb (truthy (req_status req))); simpl;
        (split; [reflexivity|discriminate]). }
  destruct (fetch_booking f db (req_ref_id req)) as [old|] eqn:Hfound.
  2:{ unfold serve. rewrite (serve_with_missing _ _ _ _ Href Hknown Hfound).
      simpl. split; [reflexivity|discriminate]. }
  destruct (listed validTransitions (status old) (req_status req)) eqn:Hl.
  2:{ rewrite (serve_not_allowed f db req old Href Hknown Hfound).
      - simpl. split; [reflexivity|discriminate].
      - intros Hal. apply listed_validTransitions in Hal. congruence. }
  apply listed_validTransitions in Hl.
  rewrite (serve_allowed f db req old Href Hknown Hfound Hl).
  destruct (update_booking_fails f).
  { simpl. split; [reflexivity|discriminate]. }
  simpl fst. simpl snd. split; [intros H; now elim H|].
  intros _. exists old. repeat split; trivial.
  - unfold status_of. rewrite patch_latest_event_bookings.
    apply status_of_set_status.
    exact (proj1 (fetch_booking_found _ _ _ _ Hfound)).
  - apply events_after_patch. now apply allowed_changes.
Qed.

Lemma status_update_without_rollback_witness :
  http_status (fst (serve no_faults (BookingSamples.db_with "ARRIVED")
                      (BookingSamples.request "BOOKED" "")))
  <> 200
  /\ snd (serve no_faults (BookingSamples.db_with "ARRIVED")
             (BookingSamples.request "BOOKED" ""))
     = BookingSamples.db_with "ARRIVED".
Proof.
  assert (H : http_status
                (fst (serve no_faults (BookingSamples.db_with "ARRIVED")
                        (BookingSamples.request "BOOKED" ""))) <> 200)
    by (vm_compute; discriminate).
  split; [exact H|].
  exact (proj1 (status_update_without_rollback no_faults
                  (BookingSamples.db_with "ARRIVED")
                  (BookingSamples.request "BOOKED" "")) H).
Defined.

(** C4 as stated fails: the store fails the update of the event; the call
    answers 200, the booking is DEPARTED, and the event of the departure is
    without the notes of the request. *)
Lemma status_changed_event_unpatched :
  serve BookingSamples.event_update_fails (BookingSamples.db_with "BOOKED")
        (BookingSamples.request "DEPARTED" "gate 4")
  = (updated (BookingSamples.booking "DEPARTED"),
     {| bookings := [BookingSamples.booking "DEPARTED"];
        events := [BookingSamples.created;
                   {| event_id := 2; booking_id := "b-1";
                      event_type := "DEPARTED"; location := Some "DEL";
                      flight_id := None; notes := None |}] |})
  /\ status_of (BookingSamples.db_with "BOOKED") "ACB7K2Q9X"
     = Some "BOOKED"
  /\ events (snd (serve no_faults (BookingSamples.db_with "BOOKED")
                    (BookingSamples.request "DEPARTED" "gate 4")))
     = [BookingSamples.created;
        {| event_id := 2; booking_id := "b-1";
           event_type := "DEPARTED"; location := Some "DEL";
           flight_id := None; notes := Some "gate 4" |}].
Proof. repeat split. Qed.

(** ** The guard on cancellation *)

(** C6.  A request to cancel a booking that is ARRIVED or DELIVERED is
    refused with status 400 and the store is left as it was, whatever the
    transition table: a table that lists the pair lets the request reach
    the guard on cancellation, which refuses it; a table that does not,
    as the one of the handler, refuses it with "Cannot change status from
    C to CANCELLED". *)
Theorem cancel_after_arrival_refused (table : TransitionTable) (f : Faults)
    (db : Db) (req : Request) (b : Booking) :
  req_ref_id req <> "" ->
  req_status req = "CANCELLED" ->
  fetch_booking f db (req_ref_id req) = Some b ->
  status b = "ARRIVED" \/ status b = "DELIVERED" ->
  serve f db req
  = failure 400 ("Cannot change status from " ++ status b
                  ++ " to CANCELLED") db
  /\ serve_with table f db req
     = (if listed table (status b) "CANCELLED"
        then failure 400 "Cannot cancel booking that has already arrived" db
        else failure 400 ("Cannot change status from " ++ status b
                           ++ " to CANCELLED") db).
Proof.
  intros Href Hs Hfound Hc.
  assert (Hknown : includes validStatuses (req_status req) = true)
    by (rewrite Hs; reflexivity).
  split.
  - rewrite (serve_not_allowed f db req b Href Hknown Hfound).
    + now rewrite Hs.
    + rewrite Hs. unfold allowed. destruct Hc as [-> | ->];
        intuition discriminate.
  - rewrite (serve_with_found table f db req b Href Hknown Hfound), Hs.
    destruct (listed table (status b) "CANCELLED"); [|reflexivity].
    destruct Hc as [-> | ->]; reflexivity.
Qed.

Lemma cancel_after_arrival_refused_witness :
  serve_with BookingSamples.lenient_table no_faults
    (BookingSamples.db_with "ARRIVED")
    (BookingSamples.request "CANCELLED" "")
  = failure 400 "Cannot cancel booking that has already arrived"
      (BookingSamples.db_with "ARRIVED").
Proof.
  exact (proj2 (cancel_after_arrival_refused BookingSamples.lenient_table
                  no_faults (BookingSamples.db_with "ARRIVED")
                  (BookingSamples.request "CANCELLED" "")
                  (BookingSamples.booking "ARRIVED")
                  ltac:(discriminate) eq_refl eq_refl
                  (or_introl eq_refl))).
Defined.

(** ** BOOKED as a requested status *)

(** C9.  BOOKED is one of the accepted status strings: a request for it
    is not refused as an invalid status, and for a reference that is not
    found the answer is 404.  For a booking that exists, whatever its
    status, the request fails with status 400 and "Cannot change status
    from C to BOOKED", and the store is left as it was: no entry of the
    transition table lists BOOKED. *)
Theorem booked_is_never_reentered (f : Faults) (db : Db) (req : Request) :
  req_ref_id req <> "" ->
  req_status req = "BOOKED" ->
  In "BOOKED" validStatuses
  /\ (forall current, ~ allowed current "BOOKED")
  /\ (forall current, listed validTransitions current "BOOKED" = false)
  /\ serve f db req
     = match fetch_booking f db (req_ref_id req) with
       | Some b =>
           failure 400 ("Cannot change status from " ++ status b
                         ++ " to BOOKED") db
       | None => failure 404 "Booking not found" db
       end.
Proof.
  intros Href Hs.
  assert (Hnot : forall current, ~ allowed current "BOOKED")
    by (unfold allowed; intuition discriminate).
  assert (Hknown : includes validStatuses (req_status req) = true)
    by (rewrite Hs; reflexivity).
  split; [now left|]. split; [exact Hnot|]. split.
  - intros current.
    destruct (listed validTransitions current "BOOKED") eqn:Hl; trivial.
    apply listed_validTransitions in Hl. now elim (Hnot current).
  - destruct (fetch_booking f db (req_ref_id req)) as [b|] eqn:Hfound.
    + rewrite (serve_not_allowed f db req b Href Hknown Hfound).
      * now rewrite Hs.
      * rewrite Hs. apply Hnot.
    + exact (serve_with_missing _ f db req Href Hknown Hfound).
Qed.

Lemma booked_is_never_reentered_witness :
  serve no_faults (BookingSamples.db_with "CANCELLED")
        (BookingSamples.request "BOOKED" "")
  = failure 400 "Cannot change status from CANCELLED to BOOKED"
      (BookingSamples.db_with "CANCELLED").
Proof.
  exact (proj2 (proj2 (proj2
           (booked_is_never_reentered no_faults
              (BookingSamples.db_with "CANCELLED")
              (BookingSamples.request "BOOKED" "")
              ltac:(discriminate) eq_refl)))).
Defined.

(** The scenario of the specification: a booking that is BOOKED departs
    once; the second request for DEPARTED is refused. *)
Example departed_twice :
  fst (serve no_faults
         (snd (serve no_faults (BookingSamples.db_with "BOOKED")
                 (BookingSamples.request "DEPARTED" "")))
         (BookingSamples.request "DEPARTED" ""))
  = {| http_status := 400;
       body := Error "Cannot change status from DEPARTED to DEPARTED" |}.
Proof. reflexivity. Qed.

End BookingFacts.

(* ------------------------------------------------------------------ *)
(** * Further properties of the route search *)

Module RouteExtras.
Import Js JsFacts GetRoutes StableSort StableSortFacts DurationFacts.
Import RouteFacts RouteTerms.

Lemma direct_matching (o d : string) (start : Z) (f : Flight) :
  matching (directFlights_query o d start (start + ms_per_day)) f = true
  <-> origin f = o /\ destination f = d
      /\ start <= departure_datetime f < start + ms_per_day.
Proof.
  unfold matching. simpl. rewrite !andb_true_iff.
  rewrite !String.eqb_eq, Z.leb_le, Z.ltb_lt. tauto.
Qed.

(** X1.  Against a catalog, the direct options returned are exactly the
    flights of the catalog from the origin of the query to its destination
    that depart inside its day window, each as a one-flight route. *)
Theorem direct_routes_exact (catalog : list Flight) (req : Request)
    (routes : list RouteOption) (r : RouteOption) :
  body (serve (catalog_store catalog) req) = Routes routes ->
  (In r routes /\ type r = direct)
  <-> exists f start,
        req_departure_date req = Some (DateAt start)
        /\ r = direct_route f
        /\ In f catalog
        /\ origin f = req_origin req
        /\ destination f = req_destination req
        /\ start <= departure_datetime f < start + ms_per_day.
Proof.
  intros Hbody.
  destruct (serve_routes _ _ _ Hbody) as (start & Hdate & _ & _ & _ & ->).
  rewrite In_SearchRoutes, In_candidate_routes. split.
  - intros [[(f & -> & Hf)|(f1 & _ & Hr)] Ht].
    + rewrite rows_of_catalog in Hf.
      apply run_select_all in Hf as [Hin Hm]; [|reflexivity].
      apply direct_matching in Hm as (Ho & Hd & Hw).
      exists f, start. repeat split; tauto.
    + apply In_transit_routes in Hr as (f2 & -> & _). discriminate.
  - intros (f & start' & Hdate' & -> & Hin & Ho & Hd & Hw).
    rewrite Hdate in Hdate'. injection Hdate' as <-.
    split; [|reflexivity]. left. exists f. split; [reflexivity|].
    rewrite rows_of_catalog. apply run_select_all; [reflexivity|].
    split; [exact Hin|]. now apply direct_matching.
Qed.

Lemma direct_routes_exact_witness :
  body (serve (catalog_store Samples.sample_flights) Samples.del_blr)
  = Routes (SearchRoutes (catalog_store Samples.sample_flights)
              "DEL" "BLR" Samples.day)
  /\ In (direct_route (Samples.flight "AI701" "Air India"
                         (Samples.at_ 7 30) (Samples.at_ 10 15)
                         "DEL" "BLR"))
        (SearchRoutes (catalog_store Samples.sample_flights)
           "DEL" "BLR" Samples.day).
Proof.
  split; [reflexivity|].
  apply (proj2 (direct_routes_exact Samples.sample_flights Samples.del_blr
                  _ _ eq_refl)).
  eexists. exists Samples.day.
  split; [reflexivity|]. split; [reflexivity|].
  split; [simpl; auto 10|]. split; [reflexivity|]. split; [reflexivity|].
  vm_compute. split; [discriminate|reflexivity].
Defined.

(** X2.  Against a catalog, every transit option returned is a pair of
    flights of the catalog: the first leaves the origin of the query inside
    its day window for a place that is not its destination, the second
    leaves that place for the destination, at least two hours and less
    than two days after the first has arrived. *)
Theorem transit_route_invariant (catalog : list Flight) (req : Request)
    (routes : list RouteOption) (r : RouteOption) :
  body (serve (catalog_store catalog) req) = Routes routes ->
  In r routes -> type r = transit ->
  exists firstFlight secondFlight start,
    req_departure_date req = Some (DateAt start)
    /\ r = transit_route firstFlight secondFlight
    /\ In firstFlight catalog /\ In secondFlight catalog
    /\ origin firstFlight = req_origin req
    /\ destination firstFlight <> req_destination req
    /\ origin secondFlight = destination firstFlight
    /\ destination secondFlight = req_destination req
    /\ start <= departure_datetime firstFlight < start + ms_per_day
    /\ arrival_datetime firstFlight + 2 * ms_per_hour
       <= departure_datetime secondFlight
       < arrival_datetime firstFlight + 2 * ms_per_day.
Proof.
  intros Hbody Hr Ht.
  destruct (serve_routes _ _ _ Hbody) as (start & Hdate & _ & _ & _ & ->).
  apply In_SearchRoutes, In_candidate_routes in Hr.
  destruct Hr as [(f & -> & _)|(f1 & Hf1 & Hr)]; [discriminate|].
  apply In_transit_routes in Hr as (f2 & -> & Hf2 & Hl).
  rewrite rows_of_catalog in Hf1, Hf2.
  apply run_select_all in Hf1 as [Hin1 Hm1]; [|reflexivity].
  apply first_hop_matching in Hm1 as (Ho1 & Hd1 & Hw1).
  apply run_select_incl in Hf2 as [Hin2 Hm2].
  apply second_hop_matching in Hm2 as (Ho2 & Hd2 & Hw2).
  exists f1, f2, start. unfold layover in Hl.
  repeat split; trivial; lia.
Qed.

Lemma transit_route_invariant_witness :
  body (serve (catalog_store Samples.sample_flights) Samples.del_blr)
  = Routes (SearchRoutes (catalog_store Samples.sample_flights)
              "DEL" "BLR" Samples.day)
  /\ exists r, In r (SearchRoutes (catalog_store Samples.sample_flights)
                       "DEL" "BLR" Samples.day)
               /\ type r = transit
               /\ exists firstFlight secondFlight,
                    r = transit_route firstFlight secondFlight
                    /\ origin secondFlight = destination firstFlight.
Proof.
  split; [reflexivity|].
  exists (transit_route
            (Samples.flight "AI101" "Air India" (Samples.at_ 6 0)
               (Samples.at_ 8 30) "DEL" "BOM")
            (Samples.flight "6E502" "IndiGo" (Samples.at_ 13 30)
               (Samples.at_ 15 15) "BOM" "BLR")).
  assert (Hin : In (transit_route
            (Samples.flight "AI101" "Air India" (Samples.at_ 6 0)
               (Samples.at_ 8 30) "DEL" "BOM")
            (Samples.flight "6E502" "IndiGo" (Samples.at_ 13 30)
               (Samples.at_ 15 15) "BOM" "BLR"))
          (SearchRoutes (catalog_store Samples.sample_flights)
             "DEL" "BLR" Samples.day))
    by (vm_compute; auto 10).
  split; [exact Hin|]. split; [reflexivity|].
  destruct (transit_route_invariant Samples.sample_flights Samples.del_blr
              _ _ eq_refl Hin eq_refl)
    as (f1 & f2 & _ & _ & Heq & _ & _ & _ & _ & Ho & _).
  exists f1, f2. split; assumption.
Defined.

(** ** Ties, and the order by real duration *)

Lemma ForallOrdPairs_app {A : Type} (R : A -> A -> Prop) (l1 l2 : list A) :
  ForallOrdPairs R l1 -> ForallOrdPairs R l2 ->
  (forall a b, In a l1 -> In b l2 -> R a b) ->
  ForallOrdPairs R (l1 ++ l2).
Proof.
  intros H1 H2 Hx. induction H1 as [|a l1 Ha H1 IH]; simpl; [exact H2|].
  constructor.
  - apply Forall_app. split; [exact Ha|].
    rewrite Forall_forall. intros b Hb. apply Hx; [now left|exact Hb].
  - apply IH. intros x y Hx' Hy. apply Hx; [now right|exact Hy].
Qed.

Lemma ForallOrdPairs_with_In {A : Type} (R : A -> A -> Prop) (l : list A) :
  ForallOrdPairs R l ->
  ForallOrdPairs (fun a b => In a l /\ In b l /\ R a b) l.
Proof.
  induction 1 as [|a l Ha Hl IH]; constructor.
  - rewrite Forall_forall in *. intros b Hb.
    split; [now left|]. split; [now right|auto].
  - eapply ForallOrdPairs_impl; [|exact IH].
    intros x y (Hx & Hy & HR). split; [now right|]. split; [now right|auto].
Qed.

Lemma ForallOrdPairs_constant {A : Type} (g : A -> Z) (v : Z)
    (R : A -> A -> Prop) (l : list A) :
  (forall a b, g a = v -> g b = v -> R a b) ->
  Forall (fun a => g a = v) l -> ForallOrdPairs R l.
Proof.
  intros HR. induction 1 as [|a l Ha Hl IH]; constructor; trivial.
  eapply Forall_impl; [|exact Hl]. intros b Hb. now apply HR.
Qed.

Lemma direct_routes_in_order (rows : list Flight) :
  StronglySorted (key_le departure_datetime) rows ->
  ForallOrdPairs met_in_order (map direct_route rows).
Proof.
  induction 1 as [|f rows Hs IH Hf]; simpl; constructor; trivial.
  rewrite Forall_forall in *. intros r Hr _.
  apply in_map_iff in Hr as (g & <- & Hg). exact (Hf g Hg).
Qed.

Lemma transit_routes_in_order (store : Store) (d : string)
    (rows : list Flight) :
  StronglySorted (key_le departure_datetime) rows ->
  ForallOrdPairs met_in_order (flat_map (transit_routes store d) rows).
Proof.
  induction 1 as [|f rows Hs IH Hf]; simpl; [constructor|].
  apply ForallOrdPairs_app; trivial.
  - apply (ForallOrdPairs_constant first_departure (departure_datetime f)).
    + intros a b Ha Hb _. lia.
    + rewrite Forall_forall. intros r Hr.
      apply In_transit_routes in Hr as (g & -> & _). reflexivity.
  - intros a b Ha Hb _.
    apply In_transit_routes in Ha as (g & -> & _).
    apply in_flat_map in Hb as (f' & Hf' & Hb).
    apply In_transit_routes in Hb as (g' & -> & _).
    rewrite Forall_forall in Hf. exact (Hf f' Hf').
Qed.

Lemma run_select_sorted (catalog : list Flight) (q : Select) :
  limit q = None ->
  StronglySorted (key_le departure_datetime) (run_select catalog q).
Proof.
  intros Hq. unfold run_select, order_by_departure. rewrite Hq.
  apply sort_sorted.
Qed.

(** X3.  Against a catalog, of two options of equal duration and of the
    same type, the one that is returned first has the first flight that
    departs first (or at the same instant). *)
Theorem ties_in_departure_order (catalog : list Flight) (req : Request)
    (routes : list RouteOption) :
  body (serve (catalog_store catalog) req) = Routes routes ->
  ForallOrdPairs
    (fun a b => duration_key a = duration_key b -> type a = type b ->
                first_departure a <= first_departure b)
    routes.
Proof.
  intros Hbody.
  destruct (serve_routes _ _ _ Hbody) as (start & _ & _ & _ & _ & ->).
  eapply ForallOrdPairs_impl;
    [|apply (sort_stable duration_key met_in_order)].
  - intros a b [_ H] Hk. exact (H Hk).
  - unfold candidate_routes. apply ForallOrdPairs_app.
    + apply direct_routes_in_order. rewrite rows_of_catalog.
      now apply run_select_sorted.
    + apply transit_routes_in_order. rewrite rows_of_catalog.
      now apply run_select_sorted.
    + intros a b Ha Hb Ht.
      apply in_map_iff in Ha as (f & <- & _).
      apply in_flat_map in Hb as (g & _ & Hb).
      apply In_transit_routes in Hb as (g' & -> & _). discriminate.
Qed.

Lemma ties_in_departure_order_witness :
  body (serve (catalog_store Samples.sample_flights) Samples.del_blr)
  = Routes (SearchRoutes (catalog_store Samples.sample_flights)
              "DEL" "BLR" Samples.day)
  /\ ForallOrdPairs
       (fun a b => duration_key a = duration_key b -> type a = type b ->
                   first_departure a <= first_departure b)
       (SearchRoutes (catalog_store Samples.sample_flights)
          "DEL" "BLR" Samples.day).
Proof.
  split; [reflexivity|].
  exact (ties_in_departure_order Samples.sample_flights Samples.del_blr
           _ eq_refl).
Defined.

(** X4.  Whatever the store answers, of two returned options whose
    durations are not negative the one returned first is not longer in
    whole minutes: it is less than a minute longer than the other. *)
Theorem sorted_by_whole_minutes (store : Store) (req : Request)
    (routes : list RouteOption) :
  body (serve store req) = Routes routes ->
  ForallOrdPairs
    (fun a b => 0 <= span_of a -> 0 <= span_of b ->
                span_of a / ms_per_minute <= span_of b / ms_per_minute
                /\ span_of a < span_of b + ms_per_minute)
    routes.
Proof.
  intros Hbody.
  destruct (serve_routes _ _ _ Hbody) as (start & _ & _ & _ & _ & ->).
  pose proof (sort_stable duration_key (fun _ _ => True) _
                (ForallOrdPairs_total
                   (candidate_routes store (req_origin req)
                      (req_destination req) start))) as Hs.
  apply ForallOrdPairs_with_In in Hs.
  eapply ForallOrdPairs_impl; [|exact Hs].
  intros a b (Ha & Hb & [Hle _]) Hsa Hsb.
  rewrite (duration_key_span _ _ _ _ _ Ha Hsa) in Hle.
  rewrite (duration_key_span _ _ _ _ _ Hb Hsb) in Hle.
  split; [exact Hle|].
  unfold ms_per_minute in *. change (1000 * 60) with 60000 in *.
  pose proof (Z.div_mod (span_of a) 60000 ltac:(lia)).
  pose proof (Z.mod_pos_bound (span_of a) 60000 ltac:(lia)).
  pose proof (Z.div_mod (span_of b) 60000 ltac:(lia)).
  pose proof (Z.mod_pos_bound (span_of b) 60000 ltac:(lia)).
  lia.
Qed.

Lemma sorted_by_whole_minutes_witness :
  body (serve (catalog_store Samples.sample_flights) Samples.del_blr)
  = Routes (SearchRoutes (catalog_store Samples.sample_flights)
              "DEL" "BLR" Samples.day)
  /\ ForallOrdPairs
       (fun a b => 0 <= span_of a -> 0 <= span_of b ->
                   span_of a / ms_per_minute <= span_of b / ms_per_minute
                   /\ span_of a < span_of b + ms_per_minute)
       (SearchRoutes (catalog_store Samples.sample_flights)
          "DEL" "BLR" Samples.day).
Proof.
  split; [reflexivity|].
  exact (sorted_by_whole_minutes (catalog_store Samples.sample_flights)
           Samples.del_blr _ eq_refl).
Defined.

(** ** What [parseDuration] accepts *)

Lemma skip_spaces_then_digits (w d r : string) :
  spaces_only w = true -> digits_only d = true -> d <> "" ->
  skip_spaces (w ++ d ++ r) = d ++ r.
Proof.
  intros Hw Hd Hne. induction w as [|c w IH].
  - cbn [append]. now apply skip_spaces_digits.
  - cbn [spaces_only] in Hw. apply andb_prop in Hw as [Hc Hw].
    cbn [append skip_spaces]. rewrite Hc. now apply IH.
Qed.

(** X5.  [parseDuration] reads hours times sixty plus minutes from a text
    that starts with digits, [h], any run of white space (none included),
    digits and [m]: the minutes need not be below sixty, and what follows
    the [m] is not looked at.  The hours and the minutes are numerals
    without sign, and the minutes they make in all do not exceed 2^53, up
    to where the numbers of JavaScript hold every whole number. *)
Theorem parseDuration_lenient (a b : Z) (w rest : string) :
  0 <= a -> 0 <= b -> a * 60 + b <= 2 ^ 53 -> spaces_only w = true ->
  parseDuration (toString a ++ "h" ++ w ++ toString b ++ "m" ++ rest)
  = a * 60 + b.
Proof.
  intros Ha Hb _ Hw.
  destruct (toString_digits a Ha) as [Hda Hna].
  destruct (toString_digits b Hb) as [Hdb Hnb].
  unfold parseDuration. rewrite duration_match_unfold.
  rewrite (match_here_digits (toString a)
             ("h" ++ w ++ toString b ++ "m" ++ rest) Hda Hna eq_refl).
  cbn [append match_after_hours].
  rewrite (skip_spaces_then_digits w (toString b) (String "m" rest)
             Hw Hdb Hnb).
  rewrite (span_digits_app (toString b) (String "m" rest) Hdb eq_refl).
  destruct (toString b) eqn:Hb'; [congruence|].
  rewrite <- Hb'. now rewrite !parseInt_toString.
Qed.

Lemma parseDuration_lenient_witness :
  parseDuration "2h  75m in all" = 195.
Proof.
  exact (parseDuration_lenient 2 75 "  " " in all"
           ltac:(discriminate) ltac:(discriminate)
           ltac:(vm_compute; discriminate) eq_refl).
Defined.

(** ** Catalogs without flights that arrive before they depart *)

(** X6.  When no flight of the catalog arrives before it departs, every
    returned option has a duration that is not negative, which is the one
    the sort compares, to the minute; and every transit option lasts two
    hours at least. *)
Theorem durations_of_sound_catalog (catalog : list Flight) (req : Request)
    (routes : list RouteOption) (r : RouteOption) :
  Forall arrives_after_departure catalog ->
  body (serve (catalog_store catalog) req) = Routes routes ->
  In r routes ->
  0 <= span_of r
  /\ duration_key r = span_of r / ms_per_minute
  /\ (type r = transit ->
      2 * ms_per_hour <= span_of r /\ 120 <= duration_key r).
Proof.
  intros Hcat Hbody Hr. rewrite Forall_forall in Hcat.
  destruct (serve_routes _ _ _ Hbody) as (start & _ & _ & _ & _ & ->).
  assert (Hspan : 0 <= span_of r
                  /\ (type r = transit -> 2 * ms_per_hour <= span_of r)).
  { pose proof Hr as Hr'.
    apply In_SearchRoutes, In_candidate_routes in Hr'.
    destruct Hr' as [(f & -> & Hf)|(f1 & Hf1 & Hr')].
    - rewrite rows_of_catalog in Hf. apply run_select_incl in Hf as [Hf _].
      pose proof (Hcat f Hf) as H. unfold arrives_after_departure in H.
      change (span_of (direct_route f))
        with (arrival_datetime f - departure_datetime f).
      split; [lia|discriminate].
    - apply In_transit_routes in Hr' as (f2 & -> & Hf2 & Hl).
      rewrite rows_of_catalog in Hf1, Hf2.
      apply run_select_incl in Hf1 as [Hf1 _].
      apply run_select_incl in Hf2 as [Hf2 _].
      pose proof (Hcat f1 Hf1) as H1. pose proof (Hcat f2 Hf2) as H2.
      unfold arrives_after_departure, layover in *.
      change (span_of (transit_route f1 f2))
        with (arrival_datetime f2 - departure_datetime f1).
      unfold ms_per_hour in *. split; lia. }
  destruct Hspan as [H0 Ht]. split; [exact H0|].
  pose proof (duration_key_span _ _ _ _ _ Hr H0) as Hk.
  split; [exact Hk|]. intros Htype. specialize (Ht Htype).
  split; [exact Ht|]. rewrite Hk.
  unfold ms_per_hour, ms_per_minute in *.
  change 120 with (7200000 / (1000 * 60)).
  apply Z.div_le_mono; lia.
Qed.

Lemma durations_of_sound_catalog_witness :
  Forall arrives_after_departure Samples.sample_flights
  /\ 0 <= span_of (direct_route (Samples.flight "AI701" "Air India"
                                   (Samples.at_ 7 30) (Samples.at_ 10 15)
                                   "DEL" "BLR")).
Proof.
  assert (H : Forall arrives_after_departure Samples.sample_flights).
  { repeat constructor; vm_compute; discriminate. }
  split; [exact H|].
  apply (durations_of_sound_catalog Samples.sample_flights Samples.del_blr
           _ _ H eq_refl).
  vm_compute. auto 10.
Defined.

(** ** How many routes *)

Lemma flat_map_length_le {A B : Type} (g : A -> list B) (n : nat)
    (l : list A) :
  (forall x, (List.length (g x) <= n)%nat) ->
  (List.length (flat_map g l) <= n * List.length l)%nat.
Proof.
  intros Hg. induction l as [|x l IH]; simpl; [lia|].
  rewrite length_app. pose proof (Hg x). lia.
Qed.

Lemma filter_disjoint_length {A : Type} (p q : A -> bool) (l : list A) :
  (forall x, p x = true -> q x = false) ->
  (List.length (filter p l) + List.length (filter q l)
   <= List.length l)%nat.
Proof.
  intros Hpq. induction l as [|x l IH]; simpl; [lia|].
  destruct (p x) eqn:Hp.
  - rewrite (Hpq x Hp). simpl. lia.
  - destruct (q x); simpl; lia.
Qed.

Lemma run_select_length (catalog : list Flight) (q : Select) :
  limit q = None ->
  List.length (run_select catalog q)
  = List.length (filter (matching q) catalog).
Proof.
  intros Hq. unfold run_select, order_by_departure. rewrite Hq.
  apply sort_length.
Qed.

(** X7.  Against a catalog, the number of routes returned is at most the
    number of its direct flights in the window plus three times the number
    of its first hops, and so at most three times the size of the
    catalog. *)
Theorem route_count_bound (catalog : list Flight) (o d : string)
    (start : Z) :
  let directs := run_select catalog
                   (directFlights_query o d start (start + ms_per_day)) in
  let hops := run_select catalog
                (firstHopFlights_query o d start (start + ms_per_day)) in
  (List.length (SearchRoutes (catalog_store catalog) o d start)
   <= List.length directs + 3 * List.length hops)%nat
  /\ (List.length directs + List.length hops <= List.length catalog)%nat
  /\ (List.length (SearchRoutes (catalog_store catalog) o d start)
      <= 3 * List.length catalog)%nat.
Proof.
  intros directs hops.
  assert (H1 : (List.length (SearchRoutes (catalog_store catalog) o d start)
                <= List.length directs + 3 * List.length hops)%nat).
  { unfold SearchRoutes, sort_routes. rewrite sort_length.
    unfold candidate_routes. rewrite length_app, length_map.
    rewrite !rows_of_catalog. fold directs hops.
    pose proof (flat_map_length_le
                  (transit_routes (catalog_store catalog) d) 3 hops
                  (transit_routes_length catalog d)).
    lia. }
  assert (H2 : (List.length directs + List.length hops
                <= List.length catalog)%nat).
  { unfold directs, hops. rewrite !run_select_length by reflexivity.
    apply filter_disjoint_length.
    intros f Hf. apply direct_matching in Hf as (_ & Hd & _).
    destruct (matching _ f) eqn:Hm; trivial.
    apply first_hop_matching in Hm as (_ & Hd' & _). contradiction. }
  split; [exact H1|]. split; [exact H2|]. lia.
Qed.

End RouteExtras.

(* ------------------------------------------------------------------ *)
(** * Further properties of the status handler *)

Module BookingExtras.
Import Js UpdateBookingStatus BookingFacts LifecycleTerms.

(** A call changes nothing and does not answer 200, or it is accepted:
    the booking is found, the pair is in the table, the update goes
    through. *)
Lemma serve_outcome (f : Faults) (db : Db) (req : Request) :
  (http_status (fst (serve f db req)) <> 200 /\ snd (serve f db req) = db)
  \/ (exists old,
        req_ref_id req <> ""
        /\ includes validStatuses (req_status req) = true
        /\ fetch_booking f db (req_ref_id req) = Some old
        /\ allowed (status old) (req_status req)
        /\ serve f db req
           = (updated (with_status old (req_status req)),
              patch_latest_event f
                (set_status db (req_ref_id req) (req_status req) old)
                (with_status old (req_status req)) req)).
Proof.
  destruct (string_dec (req_ref_id req) "") as [Href|Href].
  { left. unfold serve, serve_with. rewrite Href. simpl.
    split; [discriminate|reflexivity]. }
  destruct (includes validStatuses (req_status req)) eqn:Hknown.
  2:{ left. unfold serve, serve_with. rewrite Hknown.
      destruct (negb (truthy (req_ref_id req))
                || negb (truthy (req_status req))); simpl;
        (split; [discriminate|reflexivity]). }
  destruct (fetch_booking f db (req_ref_id req)) as [old|] eqn:Hfound.
  2:{ left. unfold serve.
      rewrite (serve_with_missing _ _ _ _ Href Hknown Hfound).
      simpl. split; [discriminate|reflexivity]. }
  destruct (listed validTransitions (status old) (req_status req)) eqn:Hl.
  2:{ left. rewrite (serve_not_allowed f db req old Href Hknown Hfound).
      - simpl. split; [discriminate|reflexivity].
      - intros Hal. apply listed_validTransitions in Hal. congruence. }
  apply listed_validTransitions in Hl.
  rewrite (serve_allowed f db req old Href Hknown Hfound Hl).
  destruct (update_booking_fails f).
  { left. simpl. split; [discriminate|reflexivity]. }
  right. exists old. repeat split; trivial.
Qed.

Lemma Forall2_map_right {A : Type} (g : A -> A) (R : A -> A -> Prop)
    (l : list A) :
  (forall x, R x (g x)) -> Forall2 R l (map g l).
Proof. intros H. induction l; simpl; constructor; auto. Qed.

Lemma Forall2_same {A : Type} (R : A -> A -> Prop) (l : list A) :
  (forall x, R x x) -> Forall2 R l l.
Proof. intros H. induction l; constructor; auto. Qed.

(** X8.  Whatever the request and the failures of the store, a call
    leaves the rows of [bookings] in place: no row appears or goes, and a
    row of another reference than the one addressed is as it was.  Of the
    row addressed the handler writes the status only: its identifier,
    reference, origin, destination, pieces and weight are as they were,
    and its status is the one it had or the one asked for.  (The column
    [updated_at], which a trigger of the migration sets on the row that is
    updated, is not among the columns kept in [Booking].) *)
Theorem only_addressed_status_changes (f : Faults) (db : Db)
    (req : Request) :
  Forall2
    (fun b b' =>
       id b' = id b /\ ref_id b' = ref_id b
       /\ origin b' = origin b /\ destination b' = destination b
       /\ pieces b' = pieces b /\ weight_kg b' = weight_kg b
       /\ (status b' = status b
           \/ (ref_id b = req_ref_id req /\ status b' = req_status req))
       /\ (ref_id b <> req_ref_id req -> b' = b))
    (bookings db) (bookings (snd (serve f db req))).
Proof.
  destruct (serve_outcome f db req) as [[_ ->]|(old & _ & _ & _ & _ & ->)].
  - apply Forall2_same. intros b. repeat split; auto.
  - simpl snd. rewrite patch_latest_event_bookings.
    unfold set_status. simpl bookings.
    apply Forall2_map_right. intros b. unfold has_ref_id.
    destruct (String.eqb_spec (ref_id b) (req_ref_id req)) as [Heq|Hne].
    + repeat split; auto. intros Hne. contradiction.
    + repeat split; auto.
Qed.

(** ** The constraints of the tables *)

Lemma set_status_columns (r s : string) (l : list Booking) :
  map ref_id (map (fun b => if has_ref_id r b then with_status b s else b) l)
  = map ref_id l
  /\ map id (map (fun b => if has_ref_id r b then with_status b s else b) l)
     = map id l.
Proof.
  split; rewrite map_map; apply map_ext; intros b;
    destruct (has_ref_id r b); reflexivity.
Qed.

Lemma fresh_event_id_new (evs : list BookingEvent) :
  ~ In (fresh_event_id evs) (map event_id evs).
Proof.
  intros Hin. apply in_map_iff in Hin as (e & He & Hin).
  pose proof (event_id_below_fresh evs e Hin) as H.
  rewrite He, Nat.eqb_refl in H. discriminate.
Qed.

Lemma fetch_booking_In (f : Faults) (db : Db) (r : string) (b : Booking) :
  fetch_booking f db r = Some b -> In b (bookings db).
Proof.
  intros H. apply fetch_booking_found in H as [H _].
  destruct (filter (has_ref_id r) (bookings db)) as [|x [|y l]] eqn:Hf;
    try discriminate.
  injection H as <-.
  assert (Hin : In x (filter (has_ref_id r) (bookings db)))
    by (rewrite Hf; now left).
  now apply filter_In in Hin.
Qed.

Lemma allowed_event_type (current requested : string) :
  allowed current requested -> In requested event_types.
Proof.
  unfold allowed, event_types.
  intros [[_ [-> | ->]]|[[_ ->]|[_ ->]]]; simpl; auto 10.
Qed.

(** The events after an accepted call: the old ones and one more, of the
    new identifier, for the booking, of the type of the new status. *)
Lemma events_after_accept (f : Faults) (db : Db) (req : Request)
    (old : Booking) :
  status old <> req_status req ->
  exists e,
    events (patch_latest_event f
              (set_status db (req_ref_id req) (req_status req) old)
              (with_status old (req_status req)) req)
    = (events db ++ [e])%list
    /\ event_id e = fresh_event_id (events db)
    /\ booking_id e = id old
    /\ event_type e = req_status req
    /\ location e
       = default_location (with_status old (req_status req)).
Proof.
  intros Hne. rewrite (events_after_patch f db req old Hne).
  destruct ((truthy (req_notes req) || truthy (req_flight_id req))
            && negb (fetch_latest_event_fails f)
            && negb (update_event_fails f));
    eexists; split; try reflexivity; repeat split.
Qed.

(** X9.  A call keeps the constraints of the migration: references and
    identifiers stay unique, every event belongs to a booking, every
    status and every event type passes its [CHECK]; in particular the
    trigger never inserts an event of type BOOKED, which the table of
    events does not admit. *)
Theorem constraints_preserved (f : Faults) (db : Db) (req : Request) :
  constraints_hold db -> constraints_hold (snd (serve f db req)).
Proof.
  intros [Hr Hi He Hfk Hs Ht].
  destruct (serve_outcome f db req)
    as [[_ ->]|(old & _ & Hknown & Hfound & Hal & ->)];
    [now constructor|].
  simpl snd.
  destruct (events_after_accept f db req old (allowed_changes _ _ Hal))
    as (e & Hev & Hid & Hb & Hty & _).
  destruct (set_status_columns (req_ref_id req) (req_status req)
              (bookings db)) as [Hcr Hci].
  constructor; rewrite ?patch_latest_event_bookings, ?Hev;
    unfold set_status; simpl bookings.
  - now rewrite Hcr.
  - now rewrite Hci.
  - rewrite map_app. simpl. apply NoDup_app_remove_l with (l := []).
    simpl. apply (Permutation_NoDup
                    (l := event_id e :: map event_id (events db))).
    + apply Permutation_cons_append.
    + constructor; [|exact He]. rewrite Hid. apply fresh_event_id_new.
  - rewrite Hci. apply Forall_app. split; [exact Hfk|].
    constructor; [|constructor]. rewrite Hb.
    apply in_map. exact (fetch_booking_In _ _ _ _ Hfound).
  - rewrite Forall_forall in *. intros b Hb'.
    apply in_map_iff in Hb' as (b0 & <- & Hb0).
    destruct (has_ref_id (req_ref_id req) b0); [|now apply Hs].
    change (In (req_status req) validStatuses). now apply includes_In.
  - apply Forall_app. split; [exact Ht|].
    constructor; [|constructor]. rewrite Hty.
    exact (allowed_event_type _ _ Hal).
Qed.

Lemma constraints_preserved_witness :
  constraints_hold (BookingSamples.db_with "BOOKED")
  /\ constraints_hold
       (snd (serve no_faults (BookingSamples.db_with "BOOKED")
               (BookingSamples.request "DEPARTED" "gate 4"))).
Proof.
  assert (H : constraints_hold (BookingSamples.db_with "BOOKED")).
  { constructor; simpl; repeat constructor; simpl; auto 10;
      intuition discriminate. }
  split; [exact H|].
  exact (constraints_preserved no_faults _ _ H).
Defined.

(** ** Calls one after the other *)

Lemma fetch_after_accept (f f' : Faults) (db : Db) (req : Request)
    (old : Booking) :
  fetch_booking f db (req_ref_id req) = Some old ->
  fetch_booking_fails f' = false ->
  fetch_booking f'
    (patch_latest_event f
       (set_status db (req_ref_id req) (req_status req) old)
       (with_status old (req_status req)) req)
    (req_ref_id req)
  = Some (with_status old (req_status req)).
Proof.
  intros Hfound Hf'. unfold fetch_booking. rewrite Hf'.
  rewrite patch_latest_event_bookings. unfold set_status. simpl bookings.
  rewrite filter_set_status.
  apply fetch_booking_found in Hfound as [Hs _].
  destruct (filter (has_ref_id (req_ref_id req)) (bookings db))
    as [|x [|y l]]; try discriminate.
  injection Hs as <-. reflexivity.
Qed.

(** X10.  A request that was answered 200 is refused when it is sent
    again: unless the store fails the look-up, the answer is 400 with
    "Cannot change status from S to S", S being the requested status, and
    the second call changes nothing. *)
Theorem repeat_is_refused (f f' : Faults) (db : Db) (req : Request) :
  http_status (fst (serve f db req)) = 200 ->
  fetch_booking_fails f' = false ->
  serve f' (snd (serve f db req)) req
  = failure 400 ("Cannot change status from " ++ req_status req
                  ++ " to " ++ req_status req)
            (snd (serve f db req)).
Proof.
  intros H200 Hf'.
  destruct (serve_outcome f db req)
    as [[Hne _]|(old & Href & Hknown & Hfound & Hal & Heq)];
    [contradiction|].
  rewrite Heq. simpl snd.
  pose proof (fetch_after_accept f f' db req old Hfound Hf') as Hagain.
  rewrite (serve_not_allowed f' _ req _ Href Hknown Hagain);
    [reflexivity|].
  intros Hal'. now apply allowed_changes in Hal'.
Qed.

Lemma repeat_is_refused_witness :
  http_status (fst (serve no_faults (BookingSamples.db_with "BOOKED")
                      (BookingSamples.request "DEPARTED" ""))) = 200
  /\ fst (serve no_faults
            (snd (serve no_faults (BookingSamples.db_with "BOOKED")
                    (BookingSamples.request "DEPARTED" "")))
            (BookingSamples.request "DEPARTED" ""))
     = {| http_status := 400;
          body := Error "Cannot change status from DEPARTED to DEPARTED" |}.
Proof.
  split; [reflexivity|].
  rewrite (repeat_is_refused no_faults no_faults
             (BookingSamples.db_with "BOOKED")
             (BookingSamples.request "DEPARTED" "") eq_refl eq_refl).
  reflexivity.
Defined.

Lemma allowed_transitions_left (current requested : string) :
  allowed current requested ->
  (transitions_left requested < transitions_left current)%nat.
Proof.
  unfold allowed.
  intros [[-> [-> | ->]]|[[-> ->]|[-> ->]]]; vm_compute; lia.
Qed.

Lemma status_of_found (f : Faults) (db : Db) (r : string) (b : Booking) :
  fetch_booking f db r = Some b -> status_of db r = Some (status b).
Proof.
  intros H. apply fetch_booking_found in H as [H _].
  unfold status_of. now rewrite H.
Qed.

(** One call: the transitions left for the reference go down if it is
    answered 200, and the store is as it was if not. *)
Lemma serve_transitions_left (f : Faults) (db : Db) (req : Request) :
  (http_status (fst (serve f db req)) = 200
   /\ (transitions_left_of (snd (serve f db req)) (req_ref_id req)
       < transitions_left_of db (req_ref_id req))%nat)
  \/ (http_status (fst (serve f db req)) <> 200
      /\ snd (serve f db req) = db).
Proof.
  destruct (serve_outcome f db req)
    as [[Hne Hdb]|(old & Href & Hknown & Hfound & Hal & Heq)];
    [now right|left].
  rewrite Heq. simpl fst. simpl snd. split; [reflexivity|].
  unfold transitions_left_of.
  rewrite (status_of_found _ _ _ _ Hfound).
  rewrite (status_of_found no_faults _ _ _
             (fetch_after_accept f no_faults db req old Hfound eq_refl)).
  now apply allowed_transitions_left.
Qed.

Lemma run_cons (f : Faults) (req : Request)
    (rest : list (Faults * Request)) (db : Db) :
  run ((f, req) :: rest) db
  = (fst (serve f db req) :: fst (run rest (snd (serve f db req))),
     snd (run rest (snd (serve f db req)))).
Proof.
  cbn [run]. destruct (serve f db req) as [resp db1]. cbn [fst snd].
  destruct (run rest db1) as [resps db2]. reflexivity.
Qed.

(** X11.  However many calls address one reference, whatever they ask
    and whatever fails, at most as many are answered 200 as the table
    allows transitions in a row from the status of the booking: three
    from BOOKED, two from DEPARTED, one from ARRIVED, none from DELIVERED
    or CANCELLED or for a reference that is not found; and where none is
    left the calls leave the store as it was. *)
Theorem at_most_three_transitions (calls : list (Faults * Request))
    (db : Db) (r : string) :
  Forall (fun call => req_ref_id (snd call) = r) calls ->
  (successes (fst (run calls db)) <= transitions_left_of db r)%nat
  /\ (transitions_left_of db r <= 3)%nat
  /\ (transitions_left_of db r = 0%nat -> snd (run calls db) = db).
Proof.
  intros Hcalls.
  assert (Hbound : (transitions_left_of db r <= 3)%nat).
  { unfold transitions_left_of, transitions_left.
    destruct (status_of db r); [|lia].
    repeat match goal with
           | |- context [String.eqb ?a ?b] => destruct (String.eqb a b)
           end; lia. }
  split; [|split; [exact Hbound|]].
  - clear Hbound. revert db.
    induction Hcalls as [|[f req] rest Hr Hrest IH]; intros db;
      [unfold successes; simpl; lia|].
    simpl in Hr. subst r. rewrite run_cons. simpl fst.
    unfold successes in *. simpl filter.
    specialize (IH (snd (serve f db req))).
    destruct (serve_transitions_left f db req) as [[H200 Hlt]|[Hne Hdb]].
    + rewrite H200. simpl. lia.
    + rewrite Hdb in *.
      destruct (Z.eqb_spec (http_status (fst (serve f db req))) 200);
        [contradiction|exact IH].
  - clear Hbound. revert db.
    induction Hcalls as [|[f req] rest Hr Hrest IH]; intros db H0;
      [reflexivity|].
    simpl in Hr. subst r. rewrite run_cons. simpl snd.
    destruct (serve_transitions_left f db req) as [[_ Hlt]|[_ Hdb]];
      [lia|].
    rewrite Hdb. now apply IH.
Qed.

Lemma at_most_three_transitions_witness :
  Forall (fun call => req_ref_id (snd call) = "ACB7K2Q9X")
         [(no_faults, BookingSamples.request "DEPARTED" "");
          (no_faults, BookingSamples.request "DEPARTED" "");
          (no_faults, BookingSamples.request "ARRIVED" "");
          (no_faults, BookingSamples.request "CANCELLED" "");
          (no_faults, BookingSamples.request "DELIVERED" "");
          (no_faults, BookingSamples.request "BOOKED" "")]
  /\ (successes
        (fst (run [(no_faults, BookingSamples.request "DEPARTED" "");
                   (no_faults, BookingSamples.request "DEPARTED" "");
                   (no_faults, BookingSamples.request "ARRIVED" "");
                   (no_faults, BookingSamples.request "CANCELLED" "");
                   (no_faults, BookingSamples.request "DELIVERED" "");
                   (no_faults, BookingSamples.request "BOOKED" "")]
                  (BookingSamples.db_with "BOOKED")))
      <= transitions_left_of (BookingSamples.db_with "BOOKED")
           "ACB7K2Q9X")%nat.
Proof.
  assert (H : Forall (fun call => req_ref_id (snd call) = "ACB7K2Q9X")
         [(no_faults, BookingSamples.request "DEPARTED" "");
          (no_faults, BookingSamples.request "DEPARTED" "");
          (no_faults, BookingSamples.request "ARRIVED" "");
          (no_faults, BookingSamples.request "CANCELLED" "");
          (no_faults, BookingSamples.request "DELIVERED" "");
          (no_faults, BookingSamples.request "BOOKED" "")])
    by (repeat constructor).
  split; [exact H|].
  exact (proj1 (at_most_three_transitions _
                  (BookingSamples.db_with "BOOKED") _ H)).
Defined.

(** The six calls of the witness: three are answered 200. *)
Example three_of_six :
  map http_status
      (fst (run [(no_faults, BookingSamples.request "DEPARTED" "");
                 (no_faults, BookingSamples.request "DEPARTED" "");
                 (no_faults, BookingSamples.request "ARRIVED" "");
                 (no_faults, BookingSamples.request "CANCELLED" "");
                 (no_faults, BookingSamples.request "DELIVERED" "");
                 (no_faults, BookingSamples.request "BOOKED" "")]
                (BookingSamples.db_with "BOOKED")))
  = [200; 400; 200; 400; 200; 400].
Proof. reflexivity. Qed.

End BookingExtras.

(* ------------------------------------------------------------------ *)
(** * The page of a booking and the status handler *)

Module PageFacts.
Import Js UpdateBookingStatus BookingFacts LifecycleTerms BookingExtras.
Import BookingDetailsPage.

Lemma canUpdateTo_allowed (b : Booking) (s : string) :
  canUpdateTo (Some b) s = true <-> allowed (status b) s.
Proof.
  unfold canUpdateTo. rewrite orb_false_r.
  exact (listed_validTransitions (status b) s).
Qed.

Lemma onClick_request (b : Booking) (a : Action) :
  exists req,
    onClick b a = Some req
    /\ req_ref_id req = ref_id b
    /\ req_status req = action_status a
    /\ req_notes req = "" /\ req_flight_id req = ""
    /\ includes validStatuses (req_status req) = true.
Proof. destruct a; eexists; repeat split. Qed.

(** X12.  The page shows the button of an action exactly when the table
    of the handler lists the status of the action for the status of the
    booking.  For a booking that the store holds as the page shows it: the
    request of a button that is shown is accepted, with the booking in the
    status of the action, unless the store fails the update; the request
    of a button that is not shown would be refused with "Cannot change
    status from C to S". *)
Theorem buttons_match_handler (f : Faults) (db : Db) (b : Booking)
    (a : Action) :
  ref_id b <> "" ->
  fetch_booking f db (ref_id b) = Some b ->
  (shown b a = true <-> allowed (status b) (action_status a))
  /\ exists req,
       onClick b a = Some req
       /\ (shown b a = true -> update_booking_fails f = false ->
           fst (serve f db req)
           = updated (with_status b (action_status a)))
       /\ (shown b a = false ->
           serve f db req
           = failure 400 ("Cannot change status from " ++ status b
                           ++ " to " ++ action_status a) db).
Proof.
  intros Href Hfound.
  split; [apply canUpdateTo_allowed|].
  destruct (onClick_request b a) as (req & Hreq & Hr & Hs & _ & _ & Hk).
  exists req. split; [exact Hreq|].
  rewrite <- Hr in Href, Hfound. split.
  - intros Hshown Hup. apply canUpdateTo_allowed in Hshown.
    rewrite <- Hs in *.
    rewrite (serve_allowed f db req b Href Hk Hfound Hshown), Hup.
    reflexivity.
  - intros Hhidden. rewrite <- Hs in *.
    apply (serve_not_allowed f db req b Href Hk Hfound).
    intros Hal. apply canUpdateTo_allowed in Hal.
    unfold shown in Hhidden. congruence.
Qed.

Lemma buttons_match_handler_witness :
  fetch_booking no_faults (BookingSamples.db_with "DEPARTED") "ACB7K2Q9X"
  = Some (BookingSamples.booking "DEPARTED")
  /\ (shown (BookingSamples.booking "DEPARTED") MarkArrived = true
      <-> allowed "DEPARTED" "ARRIVED").
Proof.
  split; [reflexivity|].
  exact (proj1 (buttons_match_handler no_faults
                  (BookingSamples.db_with "DEPARTED")
                  (BookingSamples.booking "DEPARTED") MarkArrived
                  ltac:(discriminate) eq_refl)).
Defined.

(** X13.  The handler does not read the location that a button sends;
    the trigger records a place of its own.  For a button that is shown
    and a store that holds the booking as the page shows it, the two
    agree: the accepted call adds one event, of the status of the action,
    without notes and without flight, whose location is the one the button
    sent, origin for a departure and destination for an arrival or a
    delivery, and none for a cancellation, for which none is sent. *)
Theorem button_location_recorded (f : Faults) (db : Db) (b : Booking)
    (a : Action) :
  ref_id b <> "" ->
  fetch_booking f db (ref_id b) = Some b ->
  shown b a = true ->
  update_booking_fails f = false ->
  exists req e,
    onClick b a = Some req
    /\ events (snd (serve f db req)) = (events db ++ [e])%list
    /\ event_type e = action_status a
    /\ booking_id e = id b
    /\ notes e = None /\ flight_id e = None
    /\ location e
       = match a with
         | CancelBooking => None
         | _ => Some (req_location req)
         end
    /\ (a = CancelBooking -> req_location req = "").
Proof.
  intros Href Hfound Hshown Hup.
  apply canUpdateTo_allowed in Hshown.
  destruct (onClick_request b a) as (req & Hreq & Hr & Hs & Hn & Hfl & Hk).
  exists req, (status_event (with_status b (action_status a)) (events db)).
  split; [exact Hreq|].
  rewrite <- Hr in Href, Hfound. rewrite <- Hs in Hshown.
  rewrite (serve_allowed f db req b Href Hk Hfound Hshown), Hup.
  simpl snd.
  rewrite (events_after_patch f db req b (allowed_changes _ _ Hshown)).
  rewrite Hn, Hfl, Hs. simpl andb. cbv iota.
  split; [reflexivity|].
  destruct a; simpl in Hreq; injection Hreq as <-;
    repeat split; try discriminate.
Qed.

Lemma button_location_recorded_witness :
  shown (BookingSamples.booking "BOOKED") MarkDeparted = true
  /\ exists req e,
       onClick (BookingSamples.booking "BOOKED") MarkDeparted = Some req
       /\ events (snd (serve no_faults (BookingSamples.db_with "BOOKED")
                         req))
          = (events (BookingSamples.db_with "BOOKED") ++ [e])%list
       /\ location e = Some (req_location req).
Proof.
  split; [reflexivity|].
  destruct (button_location_recorded no_faults
              (BookingSamples.db_with "BOOKED")
              (BookingSamples.booking "BOOKED") MarkDeparted
              ltac:(discriminate) eq_refl eq_refl eq_refl)
    as (req & e & H1 & H2 & _ & _ & _ & _ & H3 & _).
  exists req, e. repeat split; assumption.
Defined.

End PageFacts.

(* ------------------------------------------------------------------ *)
(** * Facts about the rounding of double precision numbers *)

Module Float8Facts.
Import Float8.

(** How [round] goes: a number of 53 bits at most is left alone; a longer
    one goes to one of the two multiples of its unit in the last place
    around it, and stays if it is one of them. *)
Lemma round_cases (n : Z) :
  (Z.log2 n <= 52 /\ round n = n)
  \/ (52 < Z.log2 n
      /\ let ulp := 2 ^ (Z.log2 n - 52) in
         0 < ulp
         /\ (round n = n / ulp * ulp \/ round n = (n / ulp + 1) * ulp)
         /\ (n mod ulp = 0 -> round n = n)
         /\ (2 * (n mod ulp) < ulp -> round n = n / ulp * ulp)).
Proof.
  unfold round.
  destruct (Z.leb_spec (Z.log2 n - 52) 0) as [H|H];
    [left; split; [lia|reflexivity]|].
  right. split; [lia|]. cbv zeta.
  assert (Hu : 0 < 2 ^ (Z.log2 n - 52)) by (apply Z.pow_pos_nonneg; lia).
  split; [exact Hu|].
  pose proof (Z.div_mod n _ (Z.neq_sym _ _ (Z.lt_neq _ _ Hu))) as Hdm.
  pose proof (Z.mod_pos_bound n _ Hu) as Hb.
  destruct (Z.ltb_spec (2 * (n mod 2 ^ (Z.log2 n - 52)))
              (2 ^ (Z.log2 n - 52))) as [H1|H1].
  - split; [now left|]. split; [intros H0; lia|reflexivity].
  - destruct (Z.ltb_spec (2 ^ (Z.log2 n - 52))
                (2 * (n mod 2 ^ (Z.log2 n - 52)))) as [H2|H2].
    + split; [now right|]. split; intros; lia.
    + destruct (Z.even (n / 2 ^ (Z.log2 n - 52))).
      * split; [now left|]. split; intros; lia.
      * split; [now right|]. split; intros; lia.
Qed.

Lemma pow_split (a b : Z) :
  0 <= a -> 0 <= b -> 2 ^ (a + b) = 2 ^ a * 2 ^ b.
Proof. intros. now apply Z.pow_add_r. Qed.

Lemma positive_of_log2 (n : Z) : 0 < Z.log2 n -> 0 < n.
Proof.
  intros Hl. destruct (Z.lt_ge_cases 0 n) as [?|Hle]; trivial.
  rewrite (Z.log2_nonpos n Hle) in Hl. lia.
Qed.

(** Rounding does not go below the power of two under the number. *)
Lemma round_lower (n : Z) : 0 < n -> 2 ^ Z.log2 n <= round n.
Proof.
  intros Hn. pose proof (Z.log2_spec n Hn) as [Hlo Hhi].
  destruct (round_cases n) as [[_ ->]|(Hl & Hu & Hr & _)]; [exact Hlo|].
  cbv zeta in *.
  set (e := Z.log2 n - 52) in *.
  assert (He : Z.log2 n = 52 + e) by (unfold e; lia).
  rewrite He in *. rewrite pow_split in * by lia.
  set (u := 2 ^ e) in *.
  assert (Hq : 2 ^ 52 <= n / u) by (apply Z.div_le_lower_bound; lia).
  destruct Hr as [-> | ->]; nia.
Qed.

Lemma round_nonneg (n : Z) : 0 <= n -> 0 <= round n.
Proof.
  intros Hn. destruct (Z.eq_dec n 0) as [->|Hne]; [reflexivity|].
  pose proof (round_lower n ltac:(lia)).
  pose proof (Z.pow_pos_nonneg 2 (Z.log2 n) ltac:(lia) (Z.log2_nonneg n)).
  lia.
Qed.

(** A number that rounding leaves alone and that has more than 53 bits is
    a multiple of its unit in the last place. *)
Lemma float8_multiple (m : Z) :
  round m = m -> 52 < Z.log2 m -> m mod 2 ^ (Z.log2 m - 52) = 0.
Proof.
  intros Hm Hl.
  destruct (round_cases m) as [[? _]|(_ & Hu & Hr & _)]; [lia|].
  cbv zeta in *. set (u := 2 ^ (Z.log2 m - 52)) in *.
  pose proof (Z.div_mod m u ltac:(lia)) as Hdm.
  pose proof (Z.mod_pos_bound m u Hu) as Hb.
  rewrite Hm in Hr. destruct Hr as [Hr|Hr]; nia.
Qed.

(** Rounding does not go past a number that it leaves alone. *)
Lemma round_le_float8 (n m : Z) :
  n <= m -> round m = m -> round n <= m.
Proof.
  intros Hnm Hm.
  destruct (round_cases n) as [[_ ->]|(Hl & Hu & Hr & Hz & _)];
    [exact Hnm|].
  cbv zeta in *.
  assert (Hn : 0 < n) by (apply positive_of_log2; lia).
  pose proof (Z.log2_spec n Hn) as [Hlo Hhi].
  pose proof (Z.log2_le_mono n m Hnm) as Hmono.
  pose proof (Z.log2_spec m ltac:(lia)) as [Hmlo Hmhi].
  set (e := Z.log2 n - 52) in *.
  assert (He : Z.log2 n = 52 + e) by (unfold e; lia).
  set (u := 2 ^ e) in *.
  pose proof (Z.div_mod n u ltac:(lia)) as Hdm.
  pose proof (Z.mod_pos_bound n u Hu) as Hb.
  assert (Hq : (n / u + 1) * u <= 2 ^ 53 * u).
  { rewrite He in Hhi.
    replace (Z.succ (52 + e)) with (53 + e) in Hhi by lia.
    rewrite pow_split in Hhi by lia. fold u in Hhi.
    assert (n / u < 2 ^ 53) by (apply Z.div_lt_upper_bound; lia).
    nia. }
  destruct (Z.eq_dec (Z.log2 m) (Z.log2 n)) as [Heq|Hne].
  - pose proof (float8_multiple m Hm ltac:(lia)) as Hmul.
    rewrite Heq in Hmul. fold e in Hmul. fold u in Hmul.
    pose proof (Z.div_mod m u ltac:(lia)) as Hdm'.
    rewrite Hmul in Hdm'.
    destruct (Z.eq_dec (n mod u) 0) as [H0|H0].
    + rewrite (Hz H0). exact Hnm.
    + assert (n / u < m / u) by nia.
      destruct Hr as [-> | ->]; nia.
  - assert (Hbig : 2 ^ 53 * u <= 2 ^ Z.log2 m).
    { unfold u. rewrite <- pow_split by lia.
      apply Z.pow_le_mono_r; lia. }
    destruct Hr as [-> | ->]; nia.
Qed.

(** The largest number below one is one less 2^-53. *)
Lemma largest_below_one (x : Z) :
  is_float8 x -> x < one -> x <= one - 2 ^ 1021.
Proof.
  intros [[H0 _] Hx] H1. unfold one in *.
  destruct (Z.le_gt_cases (Z.log2 x) 52) as [Hl|Hl].
  - assert (x < 2 ^ 53).
    { destruct (Z.eq_dec x 0) as [->|Hne]; [reflexivity|].
      pose proof (Z.log2_spec x ltac:(lia)) as [_ Hhi].
      eapply Z.lt_le_trans; [exact Hhi|].
      apply Z.pow_le_mono_r; lia. }
    assert (2 ^ 53 <= 2 ^ 1074 - 2 ^ 1021) by (vm_compute; discriminate).
    lia.
  - pose proof (float8_multiple x Hx Hl) as Hmul.
    assert (Hpos : 0 < x) by (apply positive_of_log2; lia).
    pose proof (Z.log2_spec x Hpos) as [Hlo Hhi].
    assert (Hlt : Z.log2 x < 1074) by (apply Z.log2_lt_pow2; lia).
    set (e := Z.log2 x - 52) in *.
    assert (He : Z.log2 x = 52 + e) by (unfold e; lia).
    rewrite He in Hhi.
    replace (Z.succ (52 + e)) with (53 + e) in Hhi by lia.
    rewrite pow_split in Hhi by lia.
    assert (Hu : 0 < 2 ^ e) by (apply Z.pow_pos_nonneg; lia).
    pose proof (Z.div_mod x (2 ^ e) ltac:(lia)) as Hdm.
    rewrite Hmul in Hdm.
    assert (Hq : x / 2 ^ e <= 2 ^ 53 - 1) by nia.
    assert (Hle : 2 ^ e <= 2 ^ 1021) by (apply Z.pow_le_mono_r; lia).
    replace (2 ^ 1074) with (2 ^ 53 * 2 ^ 1021)
      by (vm_compute; reflexivity).
    assert (0 <= x / 2 ^ e) by (apply Z.div_pos; lia).
    nia.
Qed.

(** Thirty-six times a number below one rounds to less than thirty-six:
    to 36 less 2^-47 at most, the number just below it. *)
Lemma round_below_36 (n : Z) :
  n <= 36 * (one - 2 ^ 1021) -> round n <= 36 * one - 2 ^ 1027.
Proof.
  intros Hn. unfold one in *.
  destruct (Z.le_gt_cases n (36 * 2 ^ 1074 - 2 ^ 1027)) as [Hle|Hgt].
  - apply round_le_float8; [exact Hle|]. vm_compute. reflexivity.
  - assert (Hlog : Z.log2 n = 1079).
    { apply Z.log2_unique; [lia|]. split.
      + eapply Z.le_trans; [|apply Z.lt_le_incl; exact Hgt].
        vm_compute. discriminate.
      + eapply Z.le_lt_trans; [exact Hn|]. vm_compute. reflexivity. }
    destruct (round_cases n) as [[? _]|(_ & Hu & _ & _ & Hdown)]; [lia|].
    cbv zeta in *. rewrite Hlog in *.
    change (1079 - 52) with 1027 in *.
    replace (2 ^ 1074) with (2 ^ 53 * 2 ^ 1021) in *
      by (vm_compute; reflexivity).
    replace (2 ^ 1027) with (64 * 2 ^ 1021) in *
      by (vm_compute; reflexivity).
    set (u := 2 ^ 1021) in *.
    assert (Hu' : 0 < u) by lia.
    assert (Hq : n / (64 * u) = 36 * 2 ^ 47 - 1).
    { symmetry.
      apply (Z.div_unique n (64 * u) _
               (n - (36 * 2 ^ 47 - 1) * (64 * u))); lia. }
    pose proof (Z.div_mod n (64 * u) ltac:(lia)) as Hdm.
    rewrite Hq in Hdm.
    rewrite Hdown; [rewrite Hq; lia|lia].
Qed.

(** [floor(x * 36 + 1)] for a number [x] from zero (included) to one
    (excluded) is a position of [chars]. *)
Lemma pick_in_range (x : Z) :
  is_float8 x -> x < one ->
  1 <= floor (add (mul_integer x 36) (of_integer 1)) <= 36.
Proof.
  intros Hx H1. pose proof (largest_below_one x Hx H1) as Hmax.
  destruct Hx as [[H0 _] _].
  unfold floor, add, mul_integer, of_integer.
  pose proof (round_below_36 (x * 36) ltac:(lia)) as Hup.
  pose proof (round_nonneg (x * 36) ltac:(lia)) as Hlo.
  set (y := round (x * 36)) in *.
  assert (Hone : 0 < one) by (vm_compute; reflexivity).
  split.
  - apply Z.div_le_lower_bound; [exact Hone|].
    pose proof (round_lower (y + 1 * one) ltac:(lia)) as Hr.
    eapply Z.le_trans; [|exact Hr].
    rewrite Z.mul_1_r. unfold one at 1.
    apply Z.pow_le_mono_r; [lia|].
    change 1074 with (Z.log2 (2 ^ 1074)) at 1.
    apply Z.log2_le_mono. fold one. lia.
  - assert (H : round (y + 1 * one) <= 37 * one - 2 ^ 1027).
    { apply round_le_float8; [lia|]. vm_compute. reflexivity. }
    assert (round (y + 1 * one) / one < 37); [|lia].
    apply Z.div_lt_upper_bound; [exact Hone|].
    assert (0 < 2 ^ 1027) by (vm_compute; reflexivity). lia.
Qed.

End Float8Facts.

(* ------------------------------------------------------------------ *)
(** * Facts about the creation of a booking *)

Module CreateFacts.
Import Js UpdateBookingStatus BookingFacts LifecycleTerms BookingExtras.
Import CreateBooking.

(** ** References *)

Lemma substr_chars (i : Z) :
  1 <= i <= 36 ->
  exists c, substr chars i = String c "" /\ is_upper_or_digit c = true.
Proof.
  intros Hi.
  assert (Hall : forallb
                   (fun n => match substr chars (Z.of_nat n) with
                             | String c "" => is_upper_or_digit c
                             | _ => false
                             end) (seq 1 36) = true)
    by (vm_compute; reflexivity).
  rewrite forallb_forall in Hall.
  specialize (Hall (Z.to_nat i) ltac:(apply in_seq; lia)).
  rewrite Z2Nat.id in Hall by lia.
  destruct (substr chars i) as [|c [|c' rest]]; try discriminate.
  now exists c.
Qed.

Lemma append_assoc (a b c : string) : (a ++ b) ++ c = a ++ (b ++ c).
Proof. induction a as [|x a IH]; simpl; [reflexivity|now rewrite IH]. Qed.

Lemma generate_loop_tail (n : nat) (random : Random) (k : nat)
    (result : string) :
  (forall i, Float8.is_float8 (random i) /\ random i < Float8.one) ->
  exists tail,
    generate_loop n random k result = result ++ tail
    /\ String.length tail = n
    /\ all_chars is_upper_or_digit tail = true.
Proof.
  intros Hr. revert k result.
  induction n as [|n IH]; intros k result; cbn [generate_loop].
  - exists "". repeat split.
    induction result; simpl; [reflexivity|now f_equal].
  - destruct (Hr k) as [H0 H1].
    change (Z.of_nat (String.length chars)) with 36.
    destruct (substr_chars _ (Float8Facts.pick_in_range _ H0 H1))
      as (c & -> & Hc).
    destruct (IH (S k) (result ++ String c "")) as (t & -> & Hl & Ha).
    exists (String c t). rewrite append_assoc. simpl.
    repeat split; [now rewrite Hl|now rewrite Hc, Ha].
Qed.

(** X14.  Whatever numbers of double precision [random()] returns from
    zero (included) to one (excluded), [generate_ref_id] gives a reference
    of nine characters: ACB and six upper-case letters or digits.  The
    product and the sum are those of double precision, rounded: the
    largest number below one, times 36, rounds to the number just below
    36, and the position read in [chars] is 36 at most. *)
Theorem generate_ref_id_format (random : Random) (k : nat) :
  (forall i, Float8.is_float8 (random i) /\ random i < Float8.one) ->
  well_formed_ref (generate_ref_id random k)
  /\ String.length (generate_ref_id random k) = 9%nat.
Proof.
  intros Hr. unfold generate_ref_id.
  destruct (generate_loop_tail 6 random k "ACB" Hr) as (t & Heq & Hl & Ha).
  split; [exists t; repeat split; assumption|].
  rewrite Heq. simpl. now rewrite Hl.
Qed.

Lemma generate_ref_id_format_witness :
  (forall i, Float8.is_float8 (CreateSamples.low_random i)
             /\ CreateSamples.low_random i < Float8.one)
  /\ String.length (generate_ref_id CreateSamples.low_random 0) = 9%nat.
Proof.
  assert (H : forall i, Float8.is_float8 (CreateSamples.low_random i)
                        /\ CreateSamples.low_random i < Float8.one).
  { intros [|[|i]];
      (split; [split; [split|]|]); vm_compute;
      try reflexivity; discriminate. }
  split; [exact H|].
  exact (proj2 (generate_ref_id_format CreateSamples.low_random 0 H)).
Defined.

(** The rounding of the product shows in the character drawn: for
    [random()] a little below 25/36 the product is 25 and the character
    the 26th, Z; for the largest number below one it is the 36th, 9. *)
Example rounded_draws :
  Float8.is_float8 CreateSamples.near_25_36ths
  /\ CreateSamples.near_25_36ths * 36 < 25 * Float8.one
  /\ generate_ref_id (fun _ => CreateSamples.near_25_36ths) 0 = "ACBZZZZZZ"
  /\ Float8.is_float8 (Float8.one - 2 ^ 1021)
  /\ generate_ref_id (fun _ => Float8.one - 2 ^ 1021) 0 = "ACB999999".
Proof.
  split; [split; [split; vm_compute; discriminate
                 |vm_compute; reflexivity]|].
  split; [vm_compute; reflexivity|].
  split; [vm_compute; reflexivity|].
  split; [split; [split; vm_compute; discriminate
                 |vm_compute; reflexivity]|].
  vm_compute; reflexivity.
Qed.

Lemma first_free_found (n : nat) (random : Random) (k : nat)
    (taken : list string) (r : string) :
  first_free n random k taken = Some r ->
  ~ In r taken /\ exists j, r = generate_ref_id random j.
Proof.
  revert k. induction n as [|n IH]; intros k; cbn [first_free];
    [discriminate|].
  destruct (includes taken (generate_ref_id random k)) eqn:Hin.
  - apply IH.
  - intros [= <-]. split; [|now exists k].
    intros H. apply includes_In in H. congruence.
Qed.

Lemma first_free_enough (n : nat) (random : Random) (k : nat)
    (taken : list string) (j : nat) :
  (j < n)%nat ->
  ~ In (generate_ref_id random (k + 6 * j)) taken ->
  exists r, first_free n random k taken = Some r.
Proof.
  revert k j. induction n as [|n IH]; intros k j Hj Hfree; [lia|].
  cbn [first_free].
  destruct (includes taken (generate_ref_id random k)) eqn:Hin;
    [|eauto].
  destruct j as [|j].
  - rewrite Nat.mul_0_r, Nat.add_0_r in Hfree.
    apply includes_In in Hin. contradiction.
  - apply (IH (k + 6)%nat j); [lia|].
    replace (k + 6 + 6 * j)%nat with (k + 6 * S j)%nat by lia.
    exact Hfree.
Qed.

(** The trigger on a row without a reference, under the search path that
    the migration sets for it. *)
Lemma auto_generate_ref_id_raises (n : nat) (random : Random)
    (taken : list string) :
  auto_generate_ref_id search_path n random taken None
  = done (raised undefined_function).
Proof. reflexivity. Qed.

(** X15.  The trigger [auto_generate_ref_id] keeps a reference that the
    row brings, if it is not empty.  For a row without one it calls
    [generate_ref_id()] by its bare name: under a search path on which
    that name does not resolve, which is the case of the empty path that
    the migration sets for the trigger, it raises [undefined_function],
    whatever the table holds; under a path on which the name resolves, as
    the path of the session is, it does not raise, the reference it ends
    on is a generated one that no row of the table has, and it does end as
    soon as one of the references drawn is free. *)
Theorem auto_generate_ref_id_outcome (path : list Schema) (n : nat)
    (random : Random) (taken : list string) (new_ref_id : option string) :
  (forall r, new_ref_id = Some r -> r <> "" ->
     auto_generate_ref_id path n random taken new_ref_id
     = done (returned r))
  /\ (new_ref_id = None \/ new_ref_id = Some "" ->
      if resolves path "generate_ref_id"
      then (forall s, auto_generate_ref_id path n random taken new_ref_id
                      <> done (raised s))
           /\ (forall r,
                 auto_generate_ref_id path n random taken new_ref_id
                 = done (returned r) ->
                 ~ In r taken /\ exists j, r = generate_ref_id random j)
           /\ (forall j, (j < n)%nat ->
                 ~ In (generate_ref_id random (6 * j)) taken ->
                 exists r,
                   auto_generate_ref_id path n random taken new_ref_id
                   = done (returned r))
      else auto_generate_ref_id path n random taken new_ref_id
           = done (raised undefined_function))
  /\ resolves search_path "generate_ref_id" = false
  /\ resolves session_search_path "generate_ref_id" = true.
Proof.
  split; [|split; [|split; reflexivity]].
  - intros r -> Hr. unfold auto_generate_ref_id.
    apply String.eqb_neq in Hr. now rewrite Hr.
  - intros Hnew.
    assert (Heq : auto_generate_ref_id path n random taken new_ref_id
                  = if resolves path "generate_ref_id" then
                      match first_free n random 0 taken with
                      | Some r => done (returned r)
                      | None => still_drawing
                      end
                    else done (raised undefined_function))
      by (destruct Hnew as [-> | ->]; reflexivity).
    rewrite Heq. clear Heq.
    destruct (resolves path "generate_ref_id"); [|reflexivity].
    split; [|split].
    + intros s. destruct (first_free n random 0 taken); discriminate.
    + intros r. destruct (first_free n random 0 taken) as [r'|] eqn:Hf;
        [|discriminate].
      intros [= <-]. exact (first_free_found _ _ _ _ _ Hf).
    + intros j Hj Hfree.
      destruct (first_free_enough n random 0 taken j Hj Hfree)
        as (r & ->).
      now exists r.
Qed.

Lemma auto_generate_ref_id_outcome_witness :
  auto_generate_ref_id search_path 2 CreateSamples.low_random
    ["ACBASAAAA"] None
  = done (raised "42883")
  /\ auto_generate_ref_id session_search_path 2 CreateSamples.low_random
       ["ACBASAAAA"] None
     = done (returned "ACBAAAAAA")
  /\ ~ In "ACBAAAAAA" ["ACBASAAAA"].
Proof.
  assert (H : auto_generate_ref_id session_search_path 2
                CreateSamples.low_random ["ACBASAAAA"] None
              = done (returned "ACBAAAAAA"))
    by (vm_compute; reflexivity).
  split; [|split; [exact H|]].
  - exact (proj1 (proj2 (auto_generate_ref_id_outcome search_path 2
                           CreateSamples.low_random ["ACBASAAAA"] None))
             (or_introl eq_refl)).
  - exact (proj1 (proj1 (proj2 (proj1 (proj2
             (auto_generate_ref_id_outcome session_search_path 2
                CreateSamples.low_random ["ACBASAAAA"] None))
             (or_introl eq_refl))) "ACBAAAAAA" H)).
Defined.

(** ** The handler *)

(** The insertion of a row without a reference is an error of the store:
    the trigger raises. *)
Lemma insert_booking_refused (env : Environment) (db : Db) (o d : string)
    (p w : Z) (s : string) :
  insert_booking env db None o d p w s = done None.
Proof.
  unfold insert_booking. destruct (insert_fails env); [reflexivity|].
  now rewrite auto_generate_ref_id_raises.
Qed.

(** The three answers of the handler, and the requests that get each. *)
Lemma serve_answer (env : Environment) (db : Db) (req : Request) :
  (serve env db req = failure 400 "Missing required fields" db
   /\ (req_origin req = "" \/ req_destination req = ""
       \/ req_pieces req = None \/ req_weight_kg req = None
       \/ req_pieces req = Some 0 \/ req_weight_kg req = Some 0))
  \/ (serve env db req
      = failure 400 "Pieces and weight must be positive numbers" db
      /\ exists p w,
           req_pieces req = Some p /\ req_weight_kg req = Some w
           /\ (p < 0 \/ w < 0))
  \/ (serve env db req = failure 500 "Failed to create booking" db
      /\ req_origin req <> "" /\ req_destination req <> ""
      /\ exists p w,
           req_pieces req = Some p /\ req_weight_kg req = Some w
           /\ 0 < p /\ 0 < w).
Proof.
  unfold serve. rewrite insert_booking_refused.
  destruct (req_origin req) as [|oc o] eqn:Ho; [left; auto|].
  destruct (req_destination req) as [|dc d] eqn:Hd; [left; auto|].
  destruct (req_pieces req) as [p|] eqn:Hp; [|left; auto 6].
  destruct (req_weight_kg req) as [w|] eqn:Hw;
    [|left; simpl; rewrite orb_true_r; auto 6].
  simpl truthy. simpl negb. simpl falsy. simpl number. simpl orb.
  destruct (Z.eqb_spec p 0) as [->|Hp0]; [left; auto 8|].
  destruct (Z.eqb_spec w 0) as [->|Hw0]; [left; auto 8|].
  simpl orb. cbv iota. right.
  destruct (Z.leb_spec p 0) as [Hpn|Hpp];
    [left; split; [reflexivity|exists p, w; repeat split; lia]|].
  destruct (Z.leb_spec w 0) as [Hwn|Hwp];
    [left; split; [reflexivity|exists p, w; repeat split; lia]|].
  right. split; [reflexivity|]. split; [discriminate|].
  split; [discriminate|]. exists p, w. repeat split; assumption.
Qed.

(** X16.  The handler creates no booking.  The row it inserts brings no
    reference, the trigger [auto_generate_ref_id] raises on it under the
    empty search path that the migration sets, and the store reports the
    error: every request that passes the validation is answered 500
    "Failed to create booking", whatever the store holds and whatever
    [random()] returns.  So every request is answered, never with 200,
    the store is left as it was, and the selected route of the request is
    not looked at. *)
Theorem no_booking_is_created (env : Environment) (db : Db)
    (req : Request) :
  exists resp,
    serve env db req = done (resp, db)
    /\ http_status resp <> 200
    /\ (forall p w,
          req_origin req <> "" -> req_destination req <> "" ->
          req_pieces req = Some p -> req_weight_kg req = Some w ->
          0 < p -> 0 < w ->
          resp = {| http_status := 500;
                    body := Error "Failed to create booking" |})
    /\ (forall route,
          serve env db (with_route req route) = serve env db req).
Proof.
  assert (Hroute : forall route,
             serve env db (with_route req route) = serve env db req).
  { intros route. unfold serve. rewrite !insert_booking_refused.
    reflexivity. }
  destruct (serve_answer env db req)
    as [[Hs Hreq]|[[Hs (p' & w' & Hp' & Hw' & Hneg)]|[Hs _]]];
    eexists; (split; [exact Hs|]); (split; [discriminate|]);
    (split; [|exact Hroute]); intros p w Ho Hd Hp Hw Hp0 Hw0.
  - exfalso.
    destruct Hreq as [H|[H|[H|[H|[H|H]]]]]; try congruence;
      rewrite H in *; first [injection Hp as <-|injection Hw as <-]; lia.
  - exfalso. rewrite Hp in Hp'. rewrite Hw in Hw'.
    injection Hp' as <-. injection Hw' as <-. lia.
  - reflexivity.
Qed.

Lemma no_booking_is_created_witness :
  serve CreateSamples.quiet (BookingSamples.db_with "BOOKED")
        CreateSamples.two_pieces
  = failure 500 "Failed to create booking"
            (BookingSamples.db_with "BOOKED").
Proof.
  destruct (no_booking_is_created CreateSamples.quiet
              (BookingSamples.db_with "BOOKED") CreateSamples.two_pieces)
    as (resp & Hs & _ & Hvalid & _).
  rewrite Hs.
  rewrite (Hvalid 2 10 ltac:(discriminate) ltac:(discriminate)
             eq_refl eq_refl ltac:(lia) ltac:(lia)).
  reflexivity.
Defined.

(** X19.  A request without origin or destination, or whose pieces or
    weight are absent or zero, is answered 400 "Missing required fields":
    a count of zero is taken for a missing one; a negative count is
    answered 400 "Pieces and weight must be positive numbers".  An answer
    of 400 is given for no other request, leaves the store as it was, and
    does not wait for the trigger. *)
Theorem creation_refused (env : Environment) (db : Db) (req : Request) :
  (req_origin req = "" \/ req_destination req = ""
   \/ req_pieces req = None \/ req_weight_kg req = None
   \/ req_pieces req = Some 0 \/ req_weight_kg req = Some 0 ->
   serve env db req = failure 400 "Missing required fields" db)
  /\ (forall p w,
        req_origin req <> "" -> req_destination req <> "" ->
        req_pieces req = Some p -> req_weight_kg req = Some w ->
        p <> 0 -> w <> 0 -> p < 0 \/ w < 0 ->
        serve env db req
        = failure 400 "Pieces and weight must be positive numbers" db)
  /\ (forall resp db',
        serve env db req = done (resp, db') ->
        http_status resp = 400 ->
        db' = db
        /\ (req_origin req = "" \/ req_destination req = ""
            \/ (forall p, req_pieces req = Some p -> p <= 0)
            \/ (forall w, req_weight_kg req = Some w -> w <= 0))).
Proof.
  split; [|split].
  - unfold serve.
    intros [H|[H|[H|[H|[H|H]]]]]; rewrite H; simpl;
      rewrite ?orb_true_r; reflexivity.
  - intros p w Ho Hd Hp Hw Hp0 Hw0 Hneg. unfold serve. rewrite Hp, Hw.
    rewrite (nonempty_truthy _ Ho), (nonempty_truthy _ Hd).
    simpl negb. simpl falsy. simpl number. simpl orb.
    destruct (Z.eqb_spec p 0) as [?|_]; [lia|].
    destruct (Z.eqb_spec w 0) as [?|_]; [lia|].
    simpl orb. cbv iota.
    destruct (Z.leb_spec p 0) as [?|?]; [reflexivity|].
    destruct (Z.leb_spec w 0) as [?|?]; [reflexivity|lia].
  - intros resp db' Hserve H400.
    destruct (serve_answer env db req)
      as [[Hs Hreq]|[[Hs (p & w & Hp & Hw & Hneg)]|[Hs _]]];
      rewrite Hs in Hserve; injection Hserve as <- <-.
    + split; [reflexivity|].
      destruct Hreq as [H|[H|[H|[H|[H|H]]]]]; auto;
        [right; right; left|right; right; right|right; right; left
         |right; right; right]; intros v Hv; rewrite H in Hv;
        try discriminate; injection Hv as <-; lia.
    + split; [reflexivity|].
      destruct Hneg as [Hneg|Hneg];
        [right; right; left; intros v Hv; rewrite Hp in Hv
         |right; right; right; intros v Hv; rewrite Hw in Hv];
        injection Hv as <-; lia.
    + discriminate.
Qed.

Lemma creation_refused_witness :
  serve CreateSamples.quiet (BookingSamples.db_with "BOOKED")
        {| req_origin := "DEL"; req_destination := "BOM";
           req_pieces := Some 0; req_weight_kg := Some 10;
           req_user_id := ""; req_selected_route := no_route |}
  = failure 400 "Missing required fields"
            (BookingSamples.db_with "BOOKED").
Proof.
  apply (proj1 (creation_refused CreateSamples.quiet
                  (BookingSamples.db_with "BOOKED")
                  {| req_origin := "DEL"; req_destination := "BOM";
                     req_pieces := Some 0; req_weight_kg := Some 10;
                     req_user_id := "";
                     req_selected_route := no_route |})).
  right. right. right. right. left. reflexivity.
Defined.

End CreateFacts.

(* ------------------------------------------------------------------ *)
(** * Facts about the dashboard *)

Module DashboardFacts.
Import UpdateBookingStatus LifecycleTerms Dashboard.




End DashboardFacts.
